(** * Boulder publisher: submission of certificates to CT logs

    A shallow embedding of [publisher/publisher.go]: the construction of the
    submission payload, the per-log retry loop of [SubmitToCT], the transport
    helper [postJSON], the decoding hook [UnmarshalJSON] of the SCT type and
    the structural signature check [CheckSignature].

    Go values are embedded as follows.
    - [[]byte] is [list byte]; a Go [string] is a [string] (both are byte
      sequences, related by [list_byte_of_string]).
    - [int], [int64] and [time.Duration] are [Z], with the 64-bit wrap-around
      written out where the code can overflow.
    - [http.Header], a [map[string][]string], is a [gmap string (list string)].
    - The network, the JSON codec of the wire objects and the clock are the
      environment: the network is a state-passing oracle, and every call of
      [postJSON] and of [time.Sleep] is recorded in a trace.
    - The library functions the code calls and whose behaviour the stated
      properties depend on (base64 [StdEncoding], [strconv.Atoi],
      [asn1.Unmarshal] at the type of an ECDSA signature) are modelled after
      the Go standard library. *)

From stdpp Require Import gmap strings.
From Stdlib Require Import ZArith Lia List Bool.
From Stdlib Require Import Strings.String Strings.Ascii Strings.Byte.
From coqutil Require Import Z.bitblast.
Import ListNotations.

Local Open Scope Z_scope.

(** ** Bytes *)

Module Bytes.

(** [uint(b)], [int(b)]: the numeric value of a byte. *)
Definition to_Z (b : byte) : Z := Z.of_N (Byte.to_N b).

(** [byte(x)]: conversion to [uint8] keeps the low eight bits. *)
Definition of_Z (z : Z) : byte :=
  match Byte.of_N (Z.to_N (z mod 256)) with
  | Some b => b
  | None => "000"%byte
  end.

Definition eqb (a b : byte) : bool := to_Z a =? to_Z b.

Lemma to_Z_range (b : byte) : 0 <= to_Z b < 256.
Proof.
  unfold to_Z. pose proof (Byte.to_N_bounded b) as Hb. lia.
Qed.

Lemma of_to_Z (b : byte) : of_Z (to_Z b) = b.
Proof.
  unfold of_Z. pose proof (to_Z_range b) as Hr.
  rewrite Z.mod_small by lia. unfold to_Z.
  rewrite N2Z.id, Byte.of_to_N. reflexivity.
Qed.

Lemma to_of_Z (z : Z) : to_Z (of_Z z) = z mod 256.
Proof.
  unfold of_Z, to_Z.
  assert (Hm : 0 <= z mod 256 < 256) by (apply Z.mod_pos_bound; lia).
  destruct (Byte.of_N (Z.to_N (z mod 256))) as [b|] eqn:E.
  - apply Byte.to_of_N in E. rewrite E. lia.
  - apply Byte.of_N_None_iff in E. lia.
Qed.

Lemma to_Z_inj (a b : byte) : to_Z a = to_Z b -> a = b.
Proof.
  intros H. rewrite <- (of_to_Z a), <- (of_to_Z b). now rewrite H.
Qed.

Lemma eqb_eq (a b : byte) : eqb a b = true <-> a = b.
Proof.
  unfold eqb. rewrite Z.eqb_eq. split; [apply to_Z_inj | now intros ->].
Qed.

Lemma eqb_refl (a : byte) : eqb a a = true.
Proof. now apply eqb_eq. Qed.

Lemma eqb_neq (a b : byte) : eqb a b = false <-> a <> b.
Proof.
  rewrite <- eqb_eq. destruct (eqb a b); split; congruence.
Qed.

End Bytes.

(** ** [encoding/base64]: the standard encoding

    [base64.StdEncoding] is the RFC 4648 alphabet with [=] padding.  The
    encoder follows [Encoding.Encode]; the decoder follows
    [Encoding.DecodeString]: line breaks are dropped, then the input is read
    in quanta of four characters.  As in Go, a failed [DecodeString] still
    returns the bytes decoded before the corrupt input was met. *)

Module Base64.

Definition encodeStd : string :=
  "ABCDEFGHIJKLMNOPQRSTUVWXYZabcdefghijklmnopqrstuvwxyz0123456789+/".

Definition StdPadding : byte := x3d.

(** [enc.encode[i]] *)
Definition encode_at (i : Z) : byte :=
  nth (Z.to_nat i) (list_byte_of_string encodeStd) x00.

(** [enc.decodeMap[c]]: [0xFF] for a byte outside the alphabet, and the
    position of the byte in the alphabet otherwise. *)
Fixpoint index_from (c : byte) (alphabet : list byte) (i : Z) : Z :=
  match alphabet with
  | [] => 255
  | x :: alphabet' =>
      if Bytes.eqb x c then i else index_from c alphabet' (i + 1)
  end.

Definition decodeMap (c : byte) : Z :=
  index_from c (list_byte_of_string encodeStd) 0.

(** The 24-bit group [uint(b0)<<16 | uint(b1)<<8 | uint(b2)]. *)
Definition group (b0 b1 b2 : byte) : Z :=
  Z.lor (Z.lor (Z.shiftl (Bytes.to_Z b0) 16) (Z.shiftl (Bytes.to_Z b1) 8))
        (Bytes.to_Z b2).

(** [val>>k & 0x3F] *)
Definition sextet (val k : Z) : Z := Z.land (Z.shiftr val k) 63.

Fixpoint Encode (src : list byte) : list byte :=
  match src with
  | [] => []
  | [b0] =>
      let val := Z.shiftl (Bytes.to_Z b0) 16 in
      [encode_at (sextet val 18); encode_at (sextet val 12);
       StdPadding; StdPadding]
  | [b0; b1] =>
      let val := Z.lor (Z.shiftl (Bytes.to_Z b0) 16)
                       (Z.shiftl (Bytes.to_Z b1) 8) in
      [encode_at (sextet val 18); encode_at (sextet val 12);
       encode_at (sextet val 6); StdPadding]
  | b0 :: b1 :: b2 :: rest =>
      let val := group b0 b1 b2 in
      encode_at (sextet val 18) :: encode_at (sextet val 12)
        :: encode_at (sextet val 6) :: encode_at (sextet val 0)
        :: Encode rest
  end.

Definition EncodeToString (src : list byte) : string :=
  string_of_list_byte (Encode src).

(** [base64.CorruptInputError]; the offset it carries is not modelled. *)
Inductive CorruptInputError : Type := CorruptInput.

Definition isNewline (c : byte) : bool :=
  Bytes.eqb c x0a || Bytes.eqb c x0d.

Definition removeNewlines (s : list byte) : list byte :=
  filter (fun c => negb (isNewline c)) s.

Definition isPad (c : byte) : bool := Bytes.eqb c StdPadding.

(** The three output bytes of a quantum, from its 6-bit values:
    [dbuf[0]<<2 | dbuf[1]>>4], [dbuf[1]<<4 | dbuf[2]>>2],
    [dbuf[2]<<6 | dbuf[3]], each truncated to a byte. *)
Definition out0 (d0 d1 : Z) : byte :=
  Bytes.of_Z (Z.lor (Z.shiftl d0 2) (Z.shiftr d1 4)).
Definition out1 (d1 d2 : Z) : byte :=
  Bytes.of_Z (Z.lor (Z.shiftl d1 4) (Z.shiftr d2 2)).
Definition out2 (d2 d3 : Z) : byte :=
  Bytes.of_Z (Z.lor (Z.shiftl d2 6) d3).

Definition corrupt (decoded : list byte)
  : list byte * option CorruptInputError :=
  (decoded, Some CorruptInput).

Definition trailing (src : list byte) : option CorruptInputError :=
  match src with [] => None | _ :: _ => Some CorruptInput end.

(** [enc.decode], on input without line breaks.  The result is the bytes
    written so far and the error, if any. *)
Fixpoint decode (src : list byte) : list byte * option CorruptInputError :=
  match src with
  | [] => ([], None)
  | c0 :: src1 =>
    if isPad c0 then corrupt []                (* padding at j = 0 *)
    else if decodeMap c0 =? 255 then corrupt []
    else match src1 with
    | [] => corrupt []                         (* input ends inside a quantum *)
    | c1 :: src2 =>
      if isPad c1 then corrupt []              (* padding at j = 1 *)
      else if decodeMap c1 =? 255 then corrupt []
      else match src2 with
      | [] => corrupt []
      | c2 :: src3 =>
        if isPad c2 then                       (* [==] is expected *)
          match src3 with
          | [] => corrupt []                   (* not enough padding *)
          | c3 :: src4 =>
            if isPad c3
            then ([out0 (decodeMap c0) (decodeMap c1)], trailing src4)
            else corrupt []
          end
        else if decodeMap c2 =? 255 then corrupt []
        else match src3 with
        | [] => corrupt []
        | c3 :: src4 =>
          if isPad c3 then
            ([out0 (decodeMap c0) (decodeMap c1);
              out1 (decodeMap c1) (decodeMap c2)], trailing src4)
          else if decodeMap c3 =? 255 then corrupt []
          else
            let '(tl, err) := decode src4 in
            (out0 (decodeMap c0) (decodeMap c1)
               :: out1 (decodeMap c1) (decodeMap c2)
               :: out2 (decodeMap c2) (decodeMap c3) :: tl, err)
        end
      end
    end
  end.

Definition DecodeString (s : string)
  : list byte * option CorruptInputError :=
  decode (removeNewlines (list_byte_of_string s)).

(** *** Properties of the codec *)

Definition alphabet_ok (i : Z) : bool :=
  (decodeMap (encode_at i) =? i)
  && negb (isPad (encode_at i)) && negb (isNewline (encode_at i)).

Lemma alphabet_table :
  forallb alphabet_ok (map Z.of_nat (seq 0 64)) = true.
Proof. vm_compute. reflexivity. Qed.

Lemma alphabet_spec (i : Z) :
  0 <= i < 64 ->
  decodeMap (encode_at i) = i
  /\ isPad (encode_at i) = false /\ isNewline (encode_at i) = false.
Proof.
  intros Hi. pose proof alphabet_table as Ht.
  rewrite forallb_forall in Ht. specialize (Ht i).
  assert (Hin : In i (map Z.of_nat (seq 0 64))).
  { apply in_map_iff. exists (Z.to_nat i). split; [lia|].
    apply in_seq. lia. }
  apply Ht in Hin. unfold alphabet_ok in Hin.
  apply andb_prop in Hin as [Hin Hnl]. apply andb_prop in Hin as [Hd Hp].
  apply Z.eqb_eq in Hd. apply negb_true_iff in Hp, Hnl. auto.
Qed.

Lemma sextet_range (val k : Z) : 0 <= sextet val k < 64.
Proof.
  unfold sextet. change 63 with (Z.ones 6).
  rewrite Z.land_ones by lia. apply Z.mod_pos_bound. lia.
Qed.

Ltac bits :=
  Z.bitblast; rewrite ?Z.testbit_neg_r by lia;
  rewrite ?andb_true_r, ?andb_false_r, ?orb_false_r; try reflexivity.

Lemma regroup0 (v : Z) :
  (Z.lor (Z.shiftl (sextet v 18) 2) (Z.shiftr (sextet v 12) 4)) mod 2 ^ 8
  = Z.shiftr v 16 mod 2 ^ 8.
Proof. unfold sextet. change 63 with (Z.ones 6). bits. Qed.

Lemma regroup1 (v : Z) :
  (Z.lor (Z.shiftl (sextet v 12) 4) (Z.shiftr (sextet v 6) 2)) mod 2 ^ 8
  = Z.shiftr v 8 mod 2 ^ 8.
Proof. unfold sextet. change 63 with (Z.ones 6). bits. Qed.

Lemma regroup2 (v : Z) :
  (Z.lor (Z.shiftl (sextet v 6) 6) (sextet v 0)) mod 2 ^ 8 = v mod 2 ^ 8.
Proof. unfold sextet. change 63 with (Z.ones 6). bits. Qed.

Section Groups.
Variables x0 x1 x2 : Z.
Hypothesis H0 : 0 <= x0 < 256.
Hypothesis H1 : 0 <= x1 < 256.
Hypothesis H2 : 0 <= x2 < 256.

Let v := Z.lor (Z.lor (Z.shiftl x0 16) (Z.shiftl x1 8)) x2.

Lemma group_hi : Z.shiftr v 16 mod 2 ^ 8 = x0.
Proof using H0 H1 H2.
  subst v.
  rewrite <- (Z.mod_small x0 (2 ^ 8)) at 2 by lia.
  rewrite <- (Z.mod_small x1 (2 ^ 8)) by lia.
  rewrite <- (Z.mod_small x2 (2 ^ 8)) by lia.
  bits.
Qed.

Lemma group_mid : Z.shiftr v 8 mod 2 ^ 8 = x1.
Proof using H0 H1 H2.
  subst v.
  rewrite <- (Z.mod_small x1 (2 ^ 8)) at 2 by lia.
  rewrite <- (Z.mod_small x2 (2 ^ 8)) by lia.
  bits.
Qed.

Lemma group_lo : v mod 2 ^ 8 = x2.
Proof using H0 H1 H2.
  subst v.
  rewrite <- (Z.mod_small x2 (2 ^ 8)) at 2 by lia.
  bits.
Qed.
End Groups.

Lemma out0_group (b0 b1 b2 : byte) :
  out0 (sextet (group b0 b1 b2) 18) (sextet (group b0 b1 b2) 12) = b0.
Proof.
  apply Bytes.to_Z_inj. unfold out0. rewrite Bytes.to_of_Z.
  change 256 with (2 ^ 8). rewrite regroup0. unfold group.
  apply group_hi; apply Bytes.to_Z_range.
Qed.

Lemma out1_group (b0 b1 b2 : byte) :
  out1 (sextet (group b0 b1 b2) 12) (sextet (group b0 b1 b2) 6) = b1.
Proof.
  apply Bytes.to_Z_inj. unfold out1. rewrite Bytes.to_of_Z.
  change 256 with (2 ^ 8). rewrite regroup1. unfold group.
  apply group_mid; apply Bytes.to_Z_range.
Qed.

Lemma out2_group (b0 b1 b2 : byte) :
  out2 (sextet (group b0 b1 b2) 6) (sextet (group b0 b1 b2) 0) = b2.
Proof.
  apply Bytes.to_Z_inj. unfold out2. rewrite Bytes.to_of_Z.
  change 256 with (2 ^ 8). rewrite regroup2. unfold group.
  apply group_lo; apply Bytes.to_Z_range.
Qed.

(** The short final groups of the encoder are groups with zero bytes. *)
Lemma group_one (b0 : byte) :
  Z.shiftl (Bytes.to_Z b0) 16 = group b0 x00 x00.
Proof.
  unfold group. change (Bytes.to_Z x00) with 0.
  now rewrite Z.shiftl_0_l, !Z.lor_0_r.
Qed.

Lemma group_two (b0 b1 : byte) :
  Z.lor (Z.shiftl (Bytes.to_Z b0) 16) (Z.shiftl (Bytes.to_Z b1) 8)
  = group b0 b1 x00.
Proof.
  unfold group. change (Bytes.to_Z x00) with 0. now rewrite Z.lor_0_r.
Qed.

Lemma decode_symbol (val k : Z) :
  isPad (encode_at (sextet val k)) = false
  /\ (decodeMap (encode_at (sextet val k)) =? 255) = false
  /\ decodeMap (encode_at (sextet val k)) = sextet val k.
Proof.
  pose proof (sextet_range val k) as Hr.
  destruct (alphabet_spec _ Hr) as (Hd & Hp & _).
  repeat split; auto. rewrite Hd. apply Z.eqb_neq. lia.
Qed.

Lemma list_ind3 {A : Type} (P : list A -> Prop) :
  P [] -> (forall a, P [a]) -> (forall a b, P [a; b]) ->
  (forall a b c l, P l -> P (a :: b :: c :: l)) ->
  forall l, P l.
Proof.
  intros Hnil Hone Htwo Hstep.
  fix IH 1. intros [|a [|b [|c l]]].
  - exact Hnil.
  - apply Hone.
  - apply Htwo.
  - apply Hstep, IH.
Qed.

Ltac symbol val k :=
  let Hp := fresh "Hp" in
  let Hf := fresh "Hf" in
  let Hd := fresh "Hd" in
  destruct (decode_symbol val k) as (Hp & Hf & Hd);
  rewrite ?Hp, ?Hf, ?Hd; clear Hp Hf Hd.

Lemma decode_Encode (src : list byte) : decode (Encode src) = (src, None).
Proof.
  induction src as [|b0|b0 b1|b0 b1 b2 rest IH] using list_ind3.
  - reflexivity.
  - cbn [Encode]. rewrite group_one. cbn [decode].
    set (val := group b0 x00 x00).
    symbol val 18. symbol val 12.
    change (isPad StdPadding) with true. cbn [trailing].
    subst val. now rewrite out0_group.
  - cbn [Encode]. rewrite group_two. cbn [decode].
    set (val := group b0 b1 x00).
    symbol val 18. symbol val 12. symbol val 6.
    change (isPad StdPadding) with true. cbn [trailing].
    subst val. now rewrite out0_group, out1_group.
  - cbn [Encode]. cbn zeta. cbn [decode].
    set (val := group b0 b1 b2).
    symbol val 18. symbol val 12. symbol val 6. symbol val 0.
    rewrite IH. subst val.
    now rewrite out0_group, out1_group, out2_group.
Qed.

Lemma Encode_no_newline (src : list byte) :
  removeNewlines (Encode src) = Encode src.
Proof.
  assert (Hsym : forall val k,
             negb (isNewline (encode_at (sextet val k))) = true).
  { intros val k. destruct (alphabet_spec _ (sextet_range val k))
      as (_ & _ & Hn). now rewrite Hn. }
  unfold removeNewlines.
  induction src as [|b0|b0 b1|b0 b1 b2 rest IH] using list_ind3;
    cbn [Encode filter]; cbn zeta; rewrite ?Hsym;
    change (negb (isNewline StdPadding)) with true; cbn iota;
    try reflexivity.
  unfold removeNewlines in IH. fold (filter (A:=byte)). now rewrite IH.
Qed.

(** Decoding inverts encoding, for every byte sequence. *)
Lemma DecodeString_EncodeToString (src : list byte) :
  DecodeString (EncodeToString src) = (src, None).
Proof.
  unfold DecodeString, EncodeToString.
  rewrite list_byte_of_string_of_list_byte, Encode_no_newline.
  apply decode_Encode.
Qed.

End Base64.

(** ** [strconv.Atoi]

    [Atoi(s)] is [ParseInt(s, 10, 0)] converted to [int]; [int] is 64 bits
    wide.  A syntax error yields [0]; a range error yields the nearest
    representable value, as [ParseInt] documents. *)

Module Strconv.

Definition IntSize : Z := 64.

Inductive NumError : Type := ErrSyntax | ErrRange.

Definition maxUint64 : Z := 2 ^ 64 - 1.

(** [cutoff] of [ParseUint]: the least [n] such that [n*base] overflows. *)
Definition cutoff10 : Z := maxUint64 / 10 + 1.

Definition isDigit (c : byte) : bool :=
  (Bytes.to_Z x30 <=? Bytes.to_Z c) && (Bytes.to_Z c <=? Bytes.to_Z x39).

(** The loop of [ParseUint(s, 10, 64)] over the bytes of [s], with the
    accumulator [n] a [uint64]. *)
Fixpoint parseUintLoop (s : list byte) (n : Z) : Z * option NumError :=
  match s with
  | [] => (n, None)
  | c :: s' =>
      if negb (isDigit c) then (0, Some ErrSyntax)
      else
        let d := Bytes.to_Z c - Bytes.to_Z x30 in
        if n >=? cutoff10 then (maxUint64, Some ErrRange)
        else
          let n10 := n * 10 in
          let n1 := (n10 + d) mod 2 ^ 64 in
          if (n1 <? n10) || (n1 >? maxUint64)
          then (maxUint64, Some ErrRange)
          else parseUintLoop s' n1
  end.

Definition ParseUint (s : list byte) : Z * option NumError :=
  match s with
  | [] => (0, Some ErrSyntax)
  | _ :: _ => parseUintLoop s 0
  end.

(** [int64(u)] for a [uint64] and the two's complement negation. *)
Definition int64 (z : Z) : Z := (z + 2 ^ 63) mod 2 ^ 64 - 2 ^ 63.

(** [ParseInt(s, 10, 0)] *)
Definition ParseInt (s : list byte) : Z * option NumError :=
  match s with
  | [] => (0, Some ErrSyntax)
  | c :: s' =>
      let neg := Bytes.eqb c x2d in
      let digits := if Bytes.eqb c x2b || neg then s' else s in
      let '(un, err) := ParseUint digits in
      match err with
      | Some ErrSyntax => (0, Some ErrSyntax)
      | _ =>
          let cutoff := Z.shiftl 1 (IntSize - 1) in
          if negb neg && (un >=? cutoff) then (cutoff - 1, Some ErrRange)
          else if neg && (un >? cutoff) then (- cutoff, Some ErrRange)
          else
            let n := int64 un in
            (if neg then int64 (- n) else n, None)
      end
  end.

Definition Atoi (s : string) : Z * option NumError :=
  ParseInt (list_byte_of_string s).

Example Atoi_5 : Atoi "5" = (5, None).
Proof. reflexivity. Qed.

Example Atoi_neg : Atoi "-120" = (-120, None).
Proof. reflexivity. Qed.

Example Atoi_min : Atoi "-9223372036854775808" = (- 2 ^ 63, None).
Proof. reflexivity. Qed.

Example Atoi_date : Atoi "Fri, 31 Dec 1999 23:59:59 GMT" = (0, Some ErrSyntax).
Proof. reflexivity. Qed.

Example Atoi_big : Atoi "9223372036854775808" = (2 ^ 63 - 1, Some ErrRange).
Proof. reflexivity. Qed.

Example Atoi_huge :
  Atoi "99999999999999999999999999" = (2 ^ 63 - 1, Some ErrRange).
Proof. reflexivity. Qed.

Example Atoi_small :
  Atoi "-99999999999999999999999999" = (- 2 ^ 63, Some ErrRange).
Proof. reflexivity. Qed.

(** What a failed parse returns. *)
Lemma parseUintLoop_err (s : list byte) (n : Z) (v : Z) (e : NumError) :
  parseUintLoop s n = (v, Some e) ->
  (e = ErrSyntax /\ v = 0) \/ (e = ErrRange /\ v = maxUint64).
Proof.
  revert n. induction s as [|c s IH]; intros n; cbn [parseUintLoop].
  - discriminate.
  - destruct (negb (isDigit c)); [intros [= <- <-]; auto|].
    destruct (n >=? cutoff10); [intros [= <- <-]; auto|].
    cbv zeta.
    destruct (_ || _); [intros [= <- <-]; auto|]. apply IH.
Qed.

Lemma ParseInt_err (s : list byte) (v : Z) (e : NumError) :
  ParseInt s = (v, Some e) ->
  (e = ErrSyntax /\ v = 0)
  \/ (e = ErrRange /\ (v = 2 ^ 63 - 1 \/ v = - 2 ^ 63)).
Proof.
  unfold ParseInt. destruct s as [|c s']; [intros [= <- <-]; auto|].
  cbv zeta.
  destruct (ParseUint _) as [un [[|]|]];
    try (intros [= <- <-]; auto);
    change (Z.shiftl 1 (IntSize - 1)) with (2 ^ 63);
    destruct (negb _ && _); try (intros [= <- <-]; auto);
    destruct (_ && _); try (intros [= <- <-]; auto);
    discriminate.
Qed.

Lemma Atoi_err (s : string) (v : Z) (e : NumError) :
  Atoi s = (v, Some e) ->
  (e = ErrSyntax /\ v = 0)
  \/ (e = ErrRange /\ (v = 2 ^ 63 - 1 \/ v = - 2 ^ 63)).
Proof. apply ParseInt_err. Qed.

End Strconv.

(** ** [time] *)

Module Time.

(** A [Duration] is an [int64] count of nanoseconds. *)
Definition Second : Z := 1000000000.

(** [a * b] on [Duration]: the product wraps around at 64 bits. *)
Definition mul (a b : Z) : Z := Strconv.int64 (a * b).

(** [time.Sleep(d)] returns at once when [d <= 0]; otherwise it pauses
    for at least [d].  [paused d] is the pause requested. *)
Definition paused (d : Z) : Z := Z.max 0 d.

End Time.

(** ** [encoding/asn1]: [Unmarshal] into [struct { R, S *big.Int }]

    The code hands the signature to [asn1.Unmarshal] with a pointer to a
    struct of two big integers.  For that type [Unmarshal] runs [parseField]
    on a SEQUENCE whose fields are two INTEGERs.  A slice with an offset is
    the list of the bytes from the offset on. *)

Module Asn1.

Inductive error : Type :=
| SyntaxError (msg : string)
| StructuralError (msg : string)
| InternalError.

Inductive result (A : Type) : Type :=
| Ok (a : A)
| Err (e : error).
Arguments Ok {A} a.
Arguments Err {A} e.

Definition bind {A B : Type} (r : result A) (k : A -> result B) : result B :=
  match r with
  | Ok a => k a
  | Err e => Err e
  end.

Notation "'let*' x ':=' r 'in' k" :=
  (bind r (fun x => k))
    (at level 10, x name, r at level 100, k at level 200).
Notation "'let*' ( x , y ) ':=' r 'in' k" :=
  (bind r (fun xy => let '(x, y) := xy in k))
    (at level 10, x name, y name, r at level 100, k at level 200).

Definition ClassUniversal : Z := 0.
Definition TagInteger : Z := 2.
Definition TagSequence : Z := 16.
Definition MaxInt32 : Z := 2 ^ 31 - 1.

Record tagAndLength : Type := {
  class : Z;
  tag : Z;
  length : Z;
  isCompound : bool
}.

(** [parseBase128Int]: the loop over the bytes, [shifted] counting the
    bytes read and [ret64] the value so far. *)
Fixpoint parseBase128Int (bytes : list byte) (shifted : Z) (ret64 : Z)
  : result (Z * list byte) :=
  match bytes with
  | [] => Err (SyntaxError "truncated base 128 integer")
  | b :: bytes' =>
      if shifted =? 5 then Err (StructuralError "base 128 integer too large")
      else
        let ret64 := Z.shiftl ret64 7 in
        if (shifted =? 0) && (Bytes.to_Z b =? 128)
        then Err (SyntaxError "integer is not minimally encoded")
        else
          let ret64 := Z.lor ret64 (Z.land (Bytes.to_Z b) 127) in
          if Z.land (Bytes.to_Z b) 128 =? 0 then
            if ret64 >? MaxInt32
            then Err (StructuralError "base 128 integer too large")
            else Ok (ret64, bytes')
          else parseBase128Int bytes' (shifted + 1) ret64
  end.

(** The loop of [parseTagAndLength] over the [numBytes] length bytes. *)
Fixpoint parseLongLength (numBytes : nat) (bytes : list byte) (len : Z)
  : result (Z * list byte) :=
  match numBytes with
  | O =>
      if len <? 128 then Err (StructuralError "non-minimal length")
      else Ok (len, bytes)
  | S numBytes' =>
      match bytes with
      | [] => Err (SyntaxError "truncated tag or length")
      | b :: bytes' =>
          if len >=? Z.shiftl 1 23
          then Err (StructuralError "length too large")
          else
            let len := Z.lor (Z.shiftl len 8) (Bytes.to_Z b) in
            if len =? 0
            then Err (StructuralError "superfluous leading zeros in length")
            else parseLongLength numBytes' bytes' len
      end
  end.

Definition parseTagAndLength (bytes : list byte)
  : result (tagAndLength * list byte) :=
  match bytes with
  | [] => Err InternalError
  | b :: bytes1 =>
      let b := Bytes.to_Z b in
      let class := Z.shiftr b 6 in
      let isCompound := Z.land b 32 =? 32 in
      let tag := Z.land b 31 in
      let* (tag, bytes2) :=
        (if tag =? 31 then
           let* (tag, bytes2) := parseBase128Int bytes1 0 0 in
           if tag <? 31 then Err (SyntaxError "non-minimal tag")
           else Ok (tag, bytes2)
         else Ok (tag, bytes1)) in
      match bytes2 with
      | [] => Err (SyntaxError "truncated tag or length")
      | b :: bytes3 =>
          let b := Bytes.to_Z b in
          let* (len, bytes4) :=
            (if Z.land b 128 =? 0 then Ok (Z.land b 127, bytes3)
             else
               let numBytes := Z.land b 127 in
               if numBytes =? 0
               then Err (SyntaxError "indefinite length found (not DER)")
               else parseLongLength (Z.to_nat numBytes) bytes3 0) in
          Ok ({| class := class; tag := tag; length := len;
                 isCompound := isCompound |}, bytes4)
      end
  end.

(** [invalidLength(offset, length, len(bytes))], with [bytes] the slice
    from [offset] on. *)
Definition invalidLength (len : Z) (bytes : list byte) : bool :=
  Z.of_nat (List.length bytes) <? len.

Definition checkInteger (bytes : list byte) : option error :=
  match bytes with
  | [] => Some (StructuralError "empty integer")
  | [_] => None
  | b0 :: b1 :: _ =>
      let b0 := Bytes.to_Z b0 in
      let b1 := Bytes.to_Z b1 in
      if ((b0 =? 0) && (Z.land b1 128 =? 0))
         || ((b0 =? 255) && (Z.land b1 128 =? 128))
      then Some (StructuralError "integer not minimally-encoded")
      else None
  end.

(** [big.Int.SetBytes]: a big-endian unsigned integer. *)
Definition SetBytes (bytes : list byte) : Z :=
  fold_left (fun acc b => acc * 256 + Bytes.to_Z b) bytes 0.

Definition parseBigInt (bytes : list byte) : result Z :=
  match checkInteger bytes with
  | Some e => Err e
  | None =>
      match bytes with
      | b0 :: _ =>
          if Z.land (Bytes.to_Z b0) 128 =? 128 then
            let notBytes :=
              map (fun b => Bytes.of_Z (Z.lnot (Bytes.to_Z b))) bytes in
            Ok (- (SetBytes notBytes + 1))
          else Ok (SetBytes bytes)
      | [] => Ok (SetBytes bytes)
      end
  end.

(** The bytes [bytes[offset : offset+length]] and the bytes after them. *)
Definition contents (len : Z) (bytes : list byte) : list byte * list byte :=
  (firstn (Z.to_nat len) bytes, skipn (Z.to_nat len) bytes).

(** [parseField] at a field of type [*big.Int] without parameters. *)
Definition parseFieldBigInt (bytes : list byte) : result (Z * list byte) :=
  match bytes with
  | [] => Err (SyntaxError "sequence truncated")
  | _ :: _ =>
      let* (t, bytes1) := parseTagAndLength bytes in
      if negb (class t =? ClassUniversal) || negb (tag t =? TagInteger)
         || negb (Bool.eqb (isCompound t) false)
      then Err (StructuralError "tags don't match")
      else if invalidLength (length t) bytes1
      then Err (SyntaxError "data truncated")
      else
        let '(innerBytes, rest) := contents (length t) bytes1 in
        let* v := parseBigInt innerBytes in
        Ok (v, rest)
  end.

Record ecdsaSig : Type := { R : Z; S : Z }.

(** [parseField] at the struct: a SEQUENCE, whose contents are parsed
    field by field.  Bytes left in the SEQUENCE after the last field are
    allowed. *)
Definition parseFieldEcdsaSig (bytes : list byte)
  : result (ecdsaSig * list byte) :=
  match bytes with
  | [] => Err (SyntaxError "sequence truncated")
  | _ :: _ =>
      let* (t, bytes1) := parseTagAndLength bytes in
      if negb (class t =? ClassUniversal) || negb (tag t =? TagSequence)
         || negb (Bool.eqb (isCompound t) true)
      then Err (StructuralError "tags don't match")
      else if invalidLength (length t) bytes1
      then Err (SyntaxError "data truncated")
      else
        let '(innerBytes, rest) := contents (length t) bytes1 in
        let* (r, innerBytes1) := parseFieldBigInt innerBytes in
        let* (s, _) := parseFieldBigInt innerBytes1 in
        Ok ({| R := r; S := s |}, rest)
  end.

(** [asn1.Unmarshal(b, &ecdsaSig)]: the value and the bytes after it. *)
Definition Unmarshal (b : list byte) : result (ecdsaSig * list byte) :=
  parseFieldEcdsaSig b.

(** *** The encoder's side

    The format as [asn1.Marshal] writes it: a length below 128 is one
    byte; a longer one is [0x80 | k] and the [k] bytes of the
    length, most significant first, for the least [k] that holds it.  The
    parser reads back every length below 2^31. *)

(** [lengthLength], for lengths below 2^31. *)
Definition lengthLength (n : Z) : Z :=
  if n <? 2 ^ 8 then 1
  else if n <? 2 ^ 16 then 2
  else if n <? 2 ^ 24 then 3
  else 4.

(** [appendLength]: the [k] low bytes of [n], most significant first. *)
Fixpoint appendLength (k : nat) (n : Z) : list byte :=
  match k with
  | O => []
  | Datatypes.S k' =>
      Bytes.of_Z (Z.shiftr n (8 * Z.of_nat k')) :: appendLength k' n
  end.

Definition derLength (n : Z) : list byte :=
  if n <? 128 then [Bytes.of_Z n]
  else Bytes.of_Z (Z.lor 128 (lengthLength n))
         :: appendLength (Z.to_nat (lengthLength n)) n.

(** An INTEGER and a SEQUENCE with the given contents. *)
Definition derInteger (content : list byte) : list byte :=
  x02 :: derLength (Z.of_nat (List.length content)) ++ content.

Definition derSequence (content : list byte) : list byte :=
  x30 :: derLength (Z.of_nat (List.length content)) ++ content.

(** The signature whose integers have the two's complement contents [r]
    and [s]. *)
Definition derEcdsaSig (r s : list byte) : list byte :=
  derSequence (derInteger r ++ derInteger s).

(** The contents of an INTEGER that [checkInteger] lets pass: not empty,
    and without a redundant leading byte. *)
Definition minimalInteger (content : list byte) : Prop :=
  checkInteger content = None.

(** *** Examples *)

(** [SEQUENCE { INTEGER 1, INTEGER 2 }] *)
Definition der_1_2 : list byte := [x30; x06; x02; x01; x01; x02; x01; x02].

Example Unmarshal_1_2 : Unmarshal der_1_2 = Ok ({| R := 1; S := 2 |}, []).
Proof. reflexivity. Qed.

Example Unmarshal_negative :
  Unmarshal [x30; x07; x02; x02; xff; x7f; x02; x01; x00; xaa]
  = Ok ({| R := -129; S := 0 |}, [xaa]).
Proof. reflexivity. Qed.

Example Unmarshal_truncated :
  Unmarshal [x30; x06; x02; x01; x01]
  = Err (SyntaxError "data truncated").
Proof. reflexivity. Qed.

Example Unmarshal_not_a_sequence :
  Unmarshal [x02; x01; x01; x02; x01; x02]
  = Err (StructuralError "tags don't match").
Proof. reflexivity. Qed.

(** *** Framing: a parse reads a prefix of its input

    Whatever follows the bytes of a successfully parsed value is handed
    back untouched. *)

Lemma parseBase128Int_app (x bytes : list byte) :
  forall shifted ret64 v rest,
    parseBase128Int bytes shifted ret64 = Ok (v, rest) ->
    parseBase128Int (bytes ++ x) shifted ret64 = Ok (v, rest ++ x).
Proof.
  induction bytes as [|b bytes IH]; intros shifted ret64 v rest;
    cbn [parseBase128Int app]; [discriminate|].
  destruct (shifted =? 5); [discriminate|]. cbv zeta.
  destruct (_ && _); [discriminate|].
  destruct (Z.land (Bytes.to_Z b) 128 =? 0).
  - destruct (_ >? MaxInt32); [discriminate|]. now intros [= <- <-].
  - apply IH.
Qed.

Lemma parseLongLength_app (x : list byte) (numBytes : nat) :
  forall bytes len v rest,
    parseLongLength numBytes bytes len = Ok (v, rest) ->
    parseLongLength numBytes (bytes ++ x) len = Ok (v, rest ++ x).
Proof.
  induction numBytes as [|n IH]; intros bytes len v rest;
    cbn [parseLongLength].
  - destruct (len <? 128); [discriminate|]. now intros [= <- <-].
  - destruct bytes as [|b bytes]; [discriminate|]. cbn [app].
    destruct (len >=? Z.shiftl 1 23); [discriminate|]. cbv zeta.
    destruct (_ =? 0); [discriminate|]. apply IH.
Qed.

Lemma parseTagAndLength_app (x bytes : list byte) t rest :
  parseTagAndLength bytes = Ok (t, rest) ->
  parseTagAndLength (bytes ++ x) = Ok (t, rest ++ x).
Proof.
  unfold parseTagAndLength. destruct bytes as [|b bytes1]; [discriminate|].
  cbn [app]. cbv zeta.
  destruct (Z.land (Bytes.to_Z b) 31 =? 31).
  - destruct (parseBase128Int bytes1 0 0) as [[tg bytes2]|e] eqn:E;
      [|discriminate].
    rewrite (parseBase128Int_app x _ _ _ _ _ E). cbn [bind].
    destruct (tg <? 31); [discriminate|]. cbn [bind].
    destruct bytes2 as [|b2 bytes3]; [discriminate|]. cbn [app].
    destruct (Z.land (Bytes.to_Z b2) 128 =? 0).
    + cbn [bind]. now intros [= <- <-].
    + destruct (Z.land (Bytes.to_Z b2) 127 =? 0); [discriminate|].
      destruct (parseLongLength _ bytes3 0) as [[len bytes4]|e] eqn:E2;
        [|discriminate].
      rewrite (parseLongLength_app x _ _ _ _ _ E2). cbn [bind].
      now intros [= <- <-].
  - cbn [bind].
    destruct bytes1 as [|b2 bytes3]; [discriminate|]. cbn [app].
    destruct (Z.land (Bytes.to_Z b2) 128 =? 0).
    + cbn [bind]. now intros [= <- <-].
    + destruct (Z.land (Bytes.to_Z b2) 127 =? 0); [discriminate|].
      destruct (parseLongLength _ bytes3 0) as [[len bytes4]|e] eqn:E2;
        [|discriminate].
      rewrite (parseLongLength_app x _ _ _ _ _ E2). cbn [bind].
      now intros [= <- <-].
Qed.

Lemma invalidLength_app (x bytes : list byte) (len : Z) :
  invalidLength len bytes = false ->
  invalidLength len (bytes ++ x) = false.
Proof.
  unfold invalidLength. rewrite !Z.ltb_ge, length_app. lia.
Qed.

Lemma contents_app (x bytes : list byte) (len : Z) :
  invalidLength len bytes = false ->
  contents len (bytes ++ x)
  = (fst (contents len bytes), snd (contents len bytes) ++ x).
Proof.
  unfold invalidLength, contents. rewrite Z.ltb_ge. intros Hlen.
  assert (Hn : (Z.to_nat len <= List.length bytes)%nat) by lia.
  cbn [fst snd]. rewrite firstn_app, skipn_app.
  replace (Z.to_nat len - List.length bytes)%nat with 0%nat by lia.
  cbn [firstn skipn]. now rewrite app_nil_r.
Qed.

Theorem Unmarshal_app (x b : list byte) sig rest :
  Unmarshal b = Ok (sig, rest) ->
  Unmarshal (b ++ x) = Ok (sig, rest ++ x).
Proof.
  unfold Unmarshal, parseFieldEcdsaSig.
  destruct b as [|b0 b']; [discriminate|].
  change ((b0 :: b') ++ x) with (b0 :: (b' ++ x)).
  change (b0 :: (b' ++ x)) with ((b0 :: b') ++ x).
  destruct (parseTagAndLength (b0 :: b')) as [[t bytes1]|e] eqn:E;
    [|discriminate].
  rewrite (parseTagAndLength_app x _ _ _ E). cbn [bind].
  destruct (_ || _); [discriminate|].
  destruct (invalidLength (length t) bytes1) eqn:El; [discriminate|].
  rewrite (invalidLength_app x _ _ El), (contents_app x _ _ El).
  destruct (contents (length t) bytes1) as [inner after]. cbn [fst snd].
  destruct (parseFieldBigInt inner) as [[r inner1]|e]; [|discriminate].
  cbn [bind].
  destruct (parseFieldBigInt inner1) as [[s inner2]|e]; [|discriminate].
  cbn [bind]. now intros [= <- <-].
Qed.

(** *** DER encodings are accepted *)

Example der_1_2_is_der : derEcdsaSig [x01] [x02] = der_1_2.
Proof. reflexivity. Qed.

Lemma recompose (m : Z) :
  0 <= m ->
  Z.lor (Z.shiftl (Z.shiftr m 8) 8) (Bytes.to_Z (Bytes.of_Z m)) = m.
Proof.
  intros Hm. rewrite Bytes.to_of_Z. change 256 with (2 ^ 8).
  Z.bitblast.
Qed.

Lemma parseLongLength_appendLength (n : Z) (rest : list byte) :
  128 <= n < 2 ^ 31 ->
  forall k : nat,
    (k <> O -> 2 ^ (8 * (Z.of_nat k - 1)) <= n) ->
    parseLongLength k (appendLength k n ++ rest)
      (Z.shiftr n (8 * Z.of_nat k))
    = Ok (n, rest).
Proof.
  intros Hn. induction k as [|k IH]; intros Hk.
  - cbn [appendLength app parseLongLength].
    change (8 * Z.of_nat 0) with 0. rewrite Z.shiftr_0_r.
    destruct (Z.ltb_spec n 128); [lia|reflexivity].
  - cbn [appendLength app parseLongLength].
    assert (Hpow : 2 ^ (8 * Z.of_nat k) <= n).
    { replace (8 * Z.of_nat k) with (8 * (Z.of_nat (Datatypes.S k) - 1))
        by lia. now apply Hk. }
    assert (Hacc : Z.shiftr n (8 * Z.of_nat (Datatypes.S k)) < 2 ^ 23).
    { rewrite Z.shiftr_div_pow2 by lia.
      apply Z.div_lt_upper_bound; [apply Z.pow_pos_nonneg; lia|].
      assert (2 ^ 8 <= 2 ^ (8 * Z.of_nat (Datatypes.S k)))
        by (apply Z.pow_le_mono_r; lia).
      nia. }
    destruct (Z.geb_spec (Z.shiftr n (8 * Z.of_nat (Datatypes.S k)))
                (Z.shiftl 1 23)) as [Hge|_];
      [change (Z.shiftl 1 23) with (2 ^ 23) in Hge; lia|].
    cbv zeta.
    replace (Z.shiftr n (8 * Z.of_nat (Datatypes.S k)))
      with (Z.shiftr (Z.shiftr n (8 * Z.of_nat k)) 8)
      by (rewrite Z.shiftr_shiftr by lia; f_equal; lia).
    rewrite recompose by (apply Z.shiftr_nonneg; lia).
    assert (Hpos : 0 < Z.shiftr n (8 * Z.of_nat k)).
    { rewrite Z.shiftr_div_pow2 by lia.
      apply Z.div_str_pos. split; [apply Z.pow_pos_nonneg; lia|lia]. }
    destruct (Z.eqb_spec (Z.shiftr n (8 * Z.of_nat k)) 0); [lia|].
    apply IH. intros Hk0.
    transitivity (2 ^ (8 * Z.of_nat k)); [|assumption].
    apply Z.pow_le_mono_r; lia.
Qed.

Lemma lengthLength_spec (n : Z) :
  128 <= n < 2 ^ 31 ->
  1 <= lengthLength n <= 4
  /\ 2 ^ (8 * (lengthLength n - 1)) <= n
  /\ Z.shiftr n (8 * lengthLength n) = 0.
Proof.
  intros Hn. unfold lengthLength.
  assert (Hs : forall k, 0 <= k -> n < 2 ^ k -> Z.shiftr n k = 0).
  { intros k Hk Hlt. rewrite Z.shiftr_div_pow2 by lia.
    apply Z.div_small. lia. }
  destruct (Z.ltb_spec n (2 ^ 8)); [cbn; rewrite Hs; lia|].
  destruct (Z.ltb_spec n (2 ^ 16)); [cbn; rewrite Hs; lia|].
  destruct (Z.ltb_spec n (2 ^ 24)); [cbn; rewrite Hs; lia|].
  cbn; rewrite Hs; lia.
Qed.

(** The tag byte of a universal type with a low tag number, then a length
    and the rest. *)
Lemma parseTagAndLength_der (t : byte) (n : Z) (rest : list byte) :
  Z.land (Bytes.to_Z t) 31 <> 31 ->
  0 <= n < 2 ^ 31 ->
  parseTagAndLength (t :: derLength n ++ rest)
  = Ok ({| class := Z.shiftr (Bytes.to_Z t) 6;
           tag := Z.land (Bytes.to_Z t) 31;
           length := n;
           isCompound := Z.land (Bytes.to_Z t) 32 =? 32 |}, rest).
Proof.
  intros Htag Hn. unfold parseTagAndLength. cbv zeta.
  destruct (Z.eqb_spec (Z.land (Bytes.to_Z t) 31) 31); [contradiction|].
  cbn [bind]. unfold derLength.
  destruct (Z.ltb_spec n 128) as [Hshort|Hlong].
  - cbn [app]. rewrite Bytes.to_of_Z, Z.mod_small by lia.
    assert (H127 : Z.land n 127 = n).
    { change 127 with (Z.ones 7). rewrite Z.land_ones by lia.
      apply Z.mod_small. lia. }
    assert (H128 : Z.land n 128 = 0).
    { rewrite <- H127, <- Z.land_assoc. apply Z.land_0_r. }
    rewrite H128, H127. reflexivity.
  - destruct (lengthLength_spec n ltac:(lia)) as (Hk & Hpow & Hshift).
    cbn [app]. rewrite Bytes.to_of_Z.
    assert (Hhead : Z.lor 128 (lengthLength n) mod 256
                    = 128 + lengthLength n).
    { assert (Hc : lengthLength n = 1 \/ lengthLength n = 2
                   \/ lengthLength n = 3 \/ lengthLength n = 4) by lia.
      destruct Hc as [->|[->|[->| ->]]]; reflexivity. }
    rewrite Hhead.
    assert (Hnum : Z.land (128 + lengthLength n) 127 = lengthLength n
                   /\ Z.land (128 + lengthLength n) 128 = 128).
    { assert (Hc : lengthLength n = 1 \/ lengthLength n = 2
                   \/ lengthLength n = 3 \/ lengthLength n = 4) by lia.
      destruct Hc as [->|[->|[->| ->]]]; split; reflexivity. }
    destruct Hnum as [-> ->]. cbn [Z.eqb Pos.eqb].
    destruct (Z.eqb_spec (lengthLength n) 0); [lia|].
    pose proof (parseLongLength_appendLength n rest ltac:(lia)
                  (Z.to_nat (lengthLength n))) as Hparse.
    rewrite Z2Nat.id in Hparse by lia. rewrite Hshift in Hparse.
    rewrite Hparse; [reflexivity|]. intros _. exact Hpow.
Qed.

Lemma parseFieldBigInt_der (content rest : list byte) :
  minimalInteger content ->
  Z.of_nat (List.length content) < 2 ^ 31 ->
  exists v, parseFieldBigInt (derInteger content ++ rest) = Ok (v, rest).
Proof.
  intros Hmin Hlen. unfold parseFieldBigInt, derInteger.
  cbn [app]. rewrite <- app_assoc.
  rewrite parseTagAndLength_der
    by (first [lia | vm_compute; discriminate]). cbn [bind].
  cbn [class tag isCompound length]. cbn [negb orb Z.eqb Pos.eqb Bool.eqb].
  unfold invalidLength. rewrite length_app.
  destruct (Z.ltb_spec (Z.of_nat (List.length content + List.length rest))
              (Z.of_nat (List.length content))); [lia|].
  unfold contents. rewrite Nat2Z.id.
  rewrite firstn_app, skipn_app, Nat.sub_diag, firstn_all, skipn_all.
  cbn [firstn skipn app]. rewrite app_nil_r.
  unfold parseBigInt. unfold minimalInteger in Hmin. rewrite Hmin.
  destruct content as [|b0 content']; [cbn; eauto|].
  destruct (Z.land (Bytes.to_Z b0) 128 =? 128); cbn; eauto.
Qed.

(** Every DER signature of less than 2^31 bytes is read by [Unmarshal] to
    its last byte. *)
Theorem Unmarshal_derEcdsaSig (r s : list byte) :
  minimalInteger r -> minimalInteger s ->
  Z.of_nat (List.length (derInteger r ++ derInteger s)) < 2 ^ 31 ->
  exists sig, Unmarshal (derEcdsaSig r s) = Ok (sig, []).
Proof.
  intros Hr Hs Hlen. unfold Unmarshal, parseFieldEcdsaSig, derEcdsaSig.
  unfold derSequence.
  rewrite <- (app_nil_r (derLength _ ++ _)), <- app_assoc.
  rewrite parseTagAndLength_der
    by (first [lia | vm_compute; discriminate]). cbn [bind].
  cbn [class tag isCompound length]. cbn [negb orb Z.eqb Pos.eqb Bool.eqb].
  unfold invalidLength. rewrite app_nil_r.
  destruct (Z.ltb_spec
              (Z.of_nat (List.length (derInteger r ++ derInteger s)))
              (Z.of_nat (List.length (derInteger r ++ derInteger s))));
    [lia|].
  unfold contents. rewrite Nat2Z.id, firstn_all, skipn_all.
  assert (Hlr : Z.of_nat (List.length r) < 2 ^ 31).
  { rewrite length_app in Hlen. unfold derInteger in Hlen.
    cbn [List.length] in Hlen. rewrite !length_app in Hlen. lia. }
  assert (Hls : Z.of_nat (List.length s) < 2 ^ 31).
  { rewrite length_app in Hlen. unfold derInteger in Hlen.
    cbn [List.length] in Hlen. rewrite !length_app in Hlen. lia. }
  destruct (parseFieldBigInt_der r (derInteger s) Hr Hlr) as [vr ->].
  cbn [bind].
  destruct (parseFieldBigInt_der s [] Hs Hls) as [vs Hvs].
  rewrite app_nil_r in Hvs. rewrite Hvs. cbn [bind]. eauto.
Qed.

(** Bytes left in the SEQUENCE after its second INTEGER do not make
    [Unmarshal] fail, and are not handed back. *)
Lemma Unmarshal_sequence_with_extra (r s extra : list byte) :
  minimalInteger r -> minimalInteger s ->
  Z.of_nat (List.length (derInteger r ++ derInteger s ++ extra)) < 2 ^ 31 ->
  exists sig,
    Unmarshal (derSequence (derInteger r ++ derInteger s ++ extra))
    = Ok (sig, []).
Proof.
  intros Hr Hs Hlen. unfold Unmarshal, parseFieldEcdsaSig, derSequence.
  rewrite <- (app_nil_r (derLength _ ++ _)), <- app_assoc.
  rewrite parseTagAndLength_der
    by (first [lia | vm_compute; discriminate]).
  cbn [bind]. cbn [class tag isCompound length].
  cbn [negb orb Z.eqb Pos.eqb Bool.eqb].
  unfold invalidLength. rewrite app_nil_r.
  destruct (Z.ltb_spec
              (Z.of_nat (List.length (derInteger r ++ derInteger s ++ extra)))
              (Z.of_nat (List.length (derInteger r ++ derInteger s ++ extra))));
    [lia|].
  unfold contents. rewrite Nat2Z.id, firstn_all, skipn_all.
  assert (Hlr : Z.of_nat (List.length r) < 2 ^ 31).
  { rewrite !length_app in Hlen. unfold derInteger in Hlen.
    cbn [List.length] in Hlen. rewrite !length_app in Hlen. lia. }
  assert (Hls : Z.of_nat (List.length s) < 2 ^ 31).
  { rewrite !length_app in Hlen. unfold derInteger in Hlen.
    cbn [List.length] in Hlen. rewrite !length_app in Hlen. lia. }
  destruct (parseFieldBigInt_der r (derInteger s ++ extra) Hr Hlr)
    as [vr ->].
  cbn [bind].
  destruct (parseFieldBigInt_der s extra Hs Hls) as [vs ->].
  cbn [bind]. eauto.
Qed.

End Asn1.

(** ** The publisher *)

Module Publisher.

(** *** Data *)

Record logDesc : Type := { URI : string }.

(** [CTConfig].  [SubmissionRetries] is an [int] and [SubmissionBackoff]
    a [time.Duration]. *)
Record CTConfig : Type := {
  Logs : list logDesc;
  SubmissionRetries : Z;
  SubmissionBackoffString : string;
  SubmissionBackoff : Z;
  IssuerDER : list byte
}.

Record ctSubmissionRequest : Type := { Chain : list string }.

(** The fields [Version], [LogID], [Timestamp], [Signature] and
    [Extensions] of the wire object; the prefix keeps them apart from the
    fields of the SCT. *)
Record rawSignedCertificateTimestamp : Type := {
  rawVersion : Z;
  rawLogID : string;
  rawTimestamp : Z;
  rawSignature : string;
  rawExtensions : string
}.

Record signedCertificateTimestamp : Type := {
  SCTVersion : Z;
  LogID : list byte;
  Timestamp : Z;
  Extensions : list byte;
  Signature : list byte
}.

(** The zero value of [var sct signedCertificateTimestamp]. *)
Definition zeroSCT : signedCertificateTimestamp :=
  {| SCTVersion := 0; LogID := []; Timestamp := 0;
     Extensions := []; Signature := [] |}.

Definition sctVersion : Z := 0.
Definition sctSigType : Z := 0.
Definition sctX509EntryType : Z := 0.
Definition sctHashSHA256 : Z := 4.
Definition sctSigECDSA : Z := 3.

(** The part of [x509.Certificate] the publisher reads. *)
Record Certificate : Type := { Raw : list byte; SerialNumber : Z }.

(** [PublisherAuthorityImpl]: [CT] is a pointer and may be [nil]. *)
Record PublisherAuthorityImpl : Type := { CT : option CTConfig }.

(** [http.Response], as far as the publisher reads it. *)
Record Response : Type := {
  StatusCode : Z;
  Header : gmap string (list string)
}.

Definition StatusOK : Z := 200.
Definition StatusRequestTimeout : Z := 408.
Definition StatusServiceUnavailable : Z := 503.

(** [Header.Get]: the first value stored under the key, or the empty
    string. *)
Definition Get (h : gmap string (list string)) (key : string) : string :=
  match h !! key with
  | Some (v :: _) => v
  | _ => EmptyString
  end.

(** *** Errors *)

(** The errors of [UnmarshalJSON], one for each of its [fmt.Errorf]. *)
Inductive decodeError : Type :=
| FailedToUnmarshalReceipt
| FailedToDecodeLogID
| FailedToDecodeSignature
| FailedToDecodeExtensions.

(** The errors of [postJSON]. *)
Inductive postError : Type :=
| CreatingRequestFailed
| RequestFailed
| FailedToReadBody
| FailedToUnmarshal (e : decodeError).

(** The errors of [CheckSignature]. *)
Inductive signatureError : Type :=
| SignatureTruncated
| UnsupportedHashFunction (b : byte)
| UnsupportedSignatureAlgorithm (b : byte)
| FailedToParseSignature (e : Asn1.error)
| TrailingGarbage.

(** The errors [SubmitToCT] returns. *)
Inductive submitError : Type :=
| MarshalFailed
| UnableToSubmitCertificate
| BadSignature (e : signatureError).

(** *** Runs

    A Go call returns, or panics at run time (an index or a slice bound
    out of range).  A loop of the model that is cut off by its fuel
    yields [OutOfFuel]. *)
Inductive run (A : Type) : Type :=
| Returns (a : A)
| Panics
| OutOfFuel.
Arguments Returns {A} a.
Arguments Panics {A}.
Arguments OutOfFuel {A}.

(** [s[i]] *)
Definition index (s : list byte) (i : nat) : run byte :=
  match s !! i with
  | Some b => Returns b
  | None => Panics
  end.

(** [s[i:]] *)
Definition sliceFrom (s : list byte) (i : nat) : run (list byte) :=
  if (i <=? List.length s)%nat then Returns (skipn i s) else Panics.

Definition rbind {A B : Type} (r : run A) (k : A -> run B) : run B :=
  match r with
  | Returns a => k a
  | Panics => Panics
  | OutOfFuel => OutOfFuel
  end.

Notation "'run*' x ':=' r 'in' k" :=
  (rbind r (fun x => k))
    (at level 10, x name, r at level 100, k at level 200).

(** *** [UnmarshalJSON]

    The decoder of the wire object is the environment's: [rawOf data] is
    the object [json.Unmarshal(data, &rawSCT)] fills in, or [None] when it
    fails.  The result is the SCT as the call leaves it, and the error. *)
Section Decoder.
Variable rawOf : list byte -> option rawSignedCertificateTimestamp.

Definition UnmarshalJSON (sct : signedCertificateTimestamp)
  (data : list byte) : signedCertificateTimestamp * option decodeError :=
  match rawOf data with
  | None => (sct, Some FailedToUnmarshalReceipt)
  | Some rawSCT =>
    let '(logID, err) := Base64.DecodeString (rawLogID rawSCT) in
    let sct := {| SCTVersion := SCTVersion sct; LogID := logID;
                  Timestamp := Timestamp sct;
                  Extensions := Extensions sct;
                  Signature := Signature sct |} in
    match err with
    | Some _ => (sct, Some FailedToDecodeLogID)
    | None =>
      let '(sig, err) := Base64.DecodeString (rawSignature rawSCT) in
      let sct := {| SCTVersion := SCTVersion sct; LogID := LogID sct;
                    Timestamp := Timestamp sct;
                    Extensions := Extensions sct;
                    Signature := sig |} in
      match err with
      | Some _ => (sct, Some FailedToDecodeSignature)
      | None =>
        let '(ext, err) := Base64.DecodeString (rawExtensions rawSCT) in
        let sct := {| SCTVersion := SCTVersion sct; LogID := LogID sct;
                      Timestamp := Timestamp sct;
                      Extensions := ext;
                      Signature := Signature sct |} in
        match err with
        | Some _ => (sct, Some FailedToDecodeExtensions)
        | None =>
          ({| SCTVersion := rawVersion rawSCT; LogID := LogID sct;
              Timestamp := rawTimestamp rawSCT;
              Extensions := Extensions sct;
              Signature := Signature sct |}, None)
        end
      end
    end
  end.
End Decoder.

(** *** [CheckSignature] *)

Definition CheckSignature (sct : signedCertificateTimestamp)
  : run (option signatureError) :=
  if (List.length (Signature sct) <? 4)%nat
  then Returns (Some SignatureTruncated)
  else
    run* b0 := index (Signature sct) 0 in
    if negb (Bytes.to_Z b0 =? sctHashSHA256)
    then Returns (Some (UnsupportedHashFunction b0))
    else
      run* b1 := index (Signature sct) 1 in
      if negb (Bytes.to_Z b1 =? sctSigECDSA)
      then Returns (Some (UnsupportedSignatureAlgorithm b1))
      else
        run* signatureBytes := sliceFrom (Signature sct) 4 in
        match Asn1.Unmarshal signatureBytes with
        | Asn1.Err e => Returns (Some (FailedToParseSignature e))
        | Asn1.Ok (_, signatureBytes) =>
            if (0 <? List.length signatureBytes)%nat
            then Returns (Some TrailingGarbage)
            else Returns None
        end.

(** *** The environment of a submission

    The network is a state-passing oracle: [roundTrip w uri data] is what
    comes of building a POST request for [uri], sending it and reading the
    whole body of the answer, in the state [w] of the world, with the
    state the world is left in.  [marshal] is [json.Marshal] at the
    submission request ([None] when it fails) and [rawOf] the decoder of
    the wire object.  Audit logging has no effect on the result and is
    left out. *)

Inductive exchange : Type :=
| NewRequestFails
| DoFails
| ReadAllFails
| Responds (resp : Response) (body : list byte).

(** What a run does, in order: a call of [postJSON] (an attempt to submit
    to a log) and a call of [time.Sleep], with the duration it is given. *)
Inductive event : Type :=
| Post (uri : string) (data : list byte)
| Sleep (d : Z).

(** *** Test data

    Concrete values for the examples: signatures, wire objects, a codec
    that knows two bodies, two networks (a scripted one, which answers the
    posts in turn whatever the log, and a stationary one, which answers
    every post to a log in the same way), three logs and a configuration. *)

(** The SCT with another signature. *)
Definition withSignature (sct : signedCertificateTimestamp)
  (sig : list byte) : signedCertificateTimestamp :=
  {| SCTVersion := SCTVersion sct; LogID := LogID sct;
     Timestamp := Timestamp sct; Extensions := Extensions sct;
     Signature := sig |}.

(** The tags, two length bytes and [SEQUENCE { INTEGER 1, INTEGER 2 }]. *)
Definition sctGood : signedCertificateTimestamp :=
  {| SCTVersion := 0; LogID := [x01; x02; x03]; Timestamp := 1234567890123;
     Extensions := [];
     Signature := x04 :: x03 :: x00 :: x08 :: Asn1.der_1_2 |}.

(** The wire object of [sctGood]. *)
Definition rawGood : rawSignedCertificateTimestamp :=
  {| rawVersion := 0; rawLogID := "AQID"; rawTimestamp := 1234567890123;
     rawSignature := "BAMACDAGAgEBAgEC"; rawExtensions := EmptyString |}.

(** A wire object with a well-formed log id and a malformed signature. *)
Definition rawBadSignature : rawSignedCertificateTimestamp :=
  {| rawVersion := 0; rawLogID := "AQID"; rawTimestamp := 1234567890123;
     rawSignature := "BAMA!"; rawExtensions := EmptyString |}.

Definition bodyGood : list byte := list_byte_of_string "good".
Definition bodyGarbled : list byte := list_byte_of_string "<html>".
Definition bodyBadSignature : list byte :=
  list_byte_of_string "bad-signature".

Definition benchRawOf (body : list byte)
  : option rawSignedCertificateTimestamp :=
  if String.eqb (string_of_list_byte body) "good" then Some rawGood
  else if String.eqb (string_of_list_byte body) "bad-signature"
  then Some rawBadSignature
  else None.

Definition benchMarshal (r : ctSubmissionRequest) : option (list byte) :=
  Some (list_byte_of_string (String.concat "," (Chain r))).

Definition scripted (w : list exchange) (uri : string) (data : list byte)
  : exchange * list exchange :=
  match w with
  | [] => (DoFails, [])
  | x :: w' => (x, w')
  end.

Definition stationary (answer : string -> exchange) (w : nat) (uri : string)
  (data : list byte) : exchange * nat :=
  (answer uri, S w).

Definition respond (status : Z) : Response :=
  {| StatusCode := status; Header := ∅ |}.

Definition respondRetryAfter (status : Z) (retryAfter : string) : Response :=
  {| StatusCode := status; Header := {[ "Retry-After" := [retryAfter] ]} |}.

Definition logA : logDesc := {| URI := "https://a.example/ct/v1/add-chain" |}.
Definition logB : logDesc := {| URI := "https://b.example/ct/v1/add-chain" |}.
Definition logC : logDesc := {| URI := "https://c.example/ct/v1/add-chain" |}.

Definition benchCT (logs : list logDesc) (retries : Z) : CTConfig :=
  {| Logs := logs; SubmissionRetries := retries;
     SubmissionBackoffString := "10s";
     SubmissionBackoff := 10 * Time.Second;
     IssuerDER := [x30; x03; x02; x01; x07] |}.

Definition benchPub (logs : list logDesc) (retries : Z)
  : PublisherAuthorityImpl :=
  {| CT := Some (benchCT logs retries) |}.

Definition benchCert : Certificate :=
  {| Raw := [x30; x03; x02; x01; x2a]; SerialNumber := 42 |}.

(** The body of every post of the bench. *)
Definition benchData : list byte := list_byte_of_string "MAMCASo=,MAMCAQc=".

(** Log B never answers; logs A and C accept. *)
Definition answerBDown (uri : string) : exchange :=
  if String.eqb uri (URI logB) then DoFails
  else Responds (respond 200) bodyGood.

(** Log B answers 451; logs A and C accept. *)
Definition answerB451 (uri : string) : exchange :=
  if String.eqb uri (URI logB) then Responds (respond 451) bodyGood
  else Responds (respond 200) bodyGood.

Section Submission.
Variable World : Type.
Variable roundTrip : World -> string -> list byte -> exchange * World.
Variable marshal : ctSubmissionRequest -> option (list byte).
Variable rawOf : list byte -> option rawSignedCertificateTimestamp.

(** A computation reads and changes the world and appends to the trace
    of the posts and sleeps made. *)
Definition M (A : Type) : Type := World -> run A * World * list event.

Definition ret {A : Type} (a : A) : M A := fun w => (Returns a, w, []).

Definition bind {A B : Type} (m : M A) (k : A -> M B) : M B :=
  fun w =>
    match m w with
    | (Returns a, w1, t1) =>
        let '(r, w2, t2) := k a w1 in (r, w2, t1 ++ t2)
    | (Panics, w1, t1) => (Panics, w1, t1)
    | (OutOfFuel, w1, t1) => (OutOfFuel, w1, t1)
    end.

Definition lift {A : Type} (r : run A) : M A := fun w => (r, w, []).

Definition post (uri : string) (data : list byte) : M exchange :=
  fun w => let '(x, w') := roundTrip w uri data in
           (Returns x, w', [Post uri data]).

Definition sleep (d : Z) : M unit := fun w => (Returns tt, w, [Sleep d]).

Notation "'do' x '<-' m ';' k" :=
  (bind m (fun x => k))
    (at level 10, x name, m at level 100, k at level 200).
Notation "m ';;' k" :=
  (bind m (fun _ => k)) (at level 100, k at level 200, right associativity).

(** *** [postJSON]

    The result is the response when there is no error, and the target
    object as the call leaves it.  [json.Unmarshal(body, respObj)] checks
    that the body is JSON and hands it to the decoding hook of the target,
    [UnmarshalJSON], which checks it again: a body that is not JSON is a
    body on which [rawOf] fails. *)
Definition postJSON (uri : string) (data : list byte)
  (respObj : signedCertificateTimestamp)
  : M ((Response + postError) * signedCertificateTimestamp) :=
  do x <- post uri data;
  match x with
  | NewRequestFails => ret (inr CreatingRequestFailed, respObj)
  | DoFails => ret (inr RequestFailed, respObj)
  | ReadAllFails => ret (inr FailedToReadBody, respObj)
  | Responds resp body =>
      let '(respObj, err) := UnmarshalJSON rawOf respObj body in
      match err with
      | Some e => ret (inr (FailedToUnmarshal e), respObj)
      | None => ret (inl resp, respObj)
      end
  end.

(** *** The retry loop of [SubmitToCT] *)

(** The variables of the loop. *)
Record loopState : Type := {
  done : bool;
  retries : Z;
  sct : signedCertificateTimestamp
}.

(** [retries++] on an [int]. *)
Definition incr (retries : Z) : Z := Strconv.int64 (retries + 1).

(** The wait chosen at a 408 or 503 response. *)
Definition retryBackoff (ct : CTConfig) (resp : Response) : Z :=
  let backoff := SubmissionBackoff ct in
  let retryAfter := Get (Header resp) "Retry-After" in
  if negb (String.eqb retryAfter EmptyString) then
    let '(seconds, err) := Strconv.Atoi retryAfter in
    match err with
    | Some _ => Time.mul Time.Second seconds
    | None => backoff
    end
  else backoff.

(** How an iteration of the loop ends. *)
Inductive control : Type := Continue | Break.

(** The body of the loop: one attempt. *)
Definition attempt (ct : CTConfig) (ctLog : logDesc) (data : list byte)
  (st : loopState) : M (control * loopState) :=
  do r <- postJSON (URI ctLog) data (sct st);
  let '(resp, sct') := r in
  match resp with
  | inr _ =>
      if retries st >=? SubmissionRetries ct
      then ret (Break, {| done := done st; retries := retries st;
                          sct := sct' |})
      else
        let retries' := incr (retries st) in
        sleep (SubmissionBackoff ct) ;;
        ret (Continue, {| done := done st; retries := retries';
                          sct := sct' |})
  | inl resp =>
      if (StatusCode resp =? StatusRequestTimeout)
         || (StatusCode resp =? StatusServiceUnavailable)
      then
        let backoff := retryBackoff ct resp in
        if retries st >=? SubmissionRetries ct
        then ret (Break, {| done := done st; retries := retries st;
                            sct := sct' |})
        else
          let retries' := incr (retries st) in
          sleep backoff ;;
          ret (Continue, {| done := done st; retries := retries';
                            sct := sct' |})
      else if negb (StatusCode resp =? StatusOK)
      then ret (Break, {| done := done st; retries := retries st;
                          sct := sct' |})
      else ret (Break, {| done := true; retries := retries st;
                          sct := sct' |})
  end.

(** [for !done && retries <= pub.CT.SubmissionRetries { ... }] *)
Fixpoint retryLoop (fuel : nat) (ct : CTConfig) (ctLog : logDesc)
  (data : list byte) (st : loopState) : M loopState :=
  if negb (done st) && (retries st <=? SubmissionRetries ct) then
    match fuel with
    | O => lift OutOfFuel
    | S fuel' =>
        do r <- attempt ct ctLog data st;
        match r with
        | (Break, st') => ret st'
        | (Continue, st') => retryLoop fuel' ct ctLog data st'
        end
    end
  else ret st.

(** Iterations that suffice for the loop, which starts at [retries = 0]
    and adds one at every [continue]. *)
Definition enough (ct : CTConfig) : nat :=
  S (Z.to_nat (SubmissionRetries ct)).

(** The body of [for _, ctLog := range pub.CT.Logs]: [None] when the
    iteration reaches its end, and the error returned otherwise. *)
Definition submitToLog (ct : CTConfig) (data : list byte)
  (ctLog : logDesc) : M (option submitError) :=
  do st <- retryLoop (enough ct) ct ctLog data
             {| done := false; retries := 0; sct := zeroSCT |};
  if negb (done st) then ret (Some UnableToSubmitCertificate)
  else
    do err <- lift (CheckSignature (sct st));
    match err with
    | Some e => ret (Some (BadSignature e))
    | None => ret None
    end.

Fixpoint submitToLogs (ct : CTConfig) (data : list byte)
  (logs : list logDesc) : M (option submitError) :=
  match logs with
  | [] => ret None
  | ctLog :: logs' =>
      do err <- submitToLog ct data ctLog;
      match err with
      | Some e => ret (Some e)
      | None => submitToLogs ct data logs'
      end
  end.

(** The submission request of a certificate. *)
Definition submissionOf (ct : CTConfig) (cert : Certificate)
  : ctSubmissionRequest :=
  {| Chain := [Base64.EncodeToString (Raw cert);
               Base64.EncodeToString (IssuerDER ct)] |}.

(** [SubmitToCT]: [None] is the [nil] error. *)
Definition SubmitToCT (pub : PublisherAuthorityImpl) (cert : Certificate)
  : M (option submitError) :=
  match CT pub with
  | None => ret None
  | Some ct =>
      let submission := submissionOf ct cert in
      match marshal submission with
      | None => ret (Some MarshalFailed)
      | Some jsonSubmission => submitToLogs ct jsonSubmission (Logs ct)
      end
  end.

(** *** Auxiliary definitions of the statements *)

(** What [postJSON] returns after an exchange. *)
Definition postResult (x : exchange) (respObj : signedCertificateTimestamp)
  : (Response + postError) * signedCertificateTimestamp :=
  match x with
  | NewRequestFails => (inr CreatingRequestFailed, respObj)
  | DoFails => (inr RequestFailed, respObj)
  | ReadAllFails => (inr FailedToReadBody, respObj)
  | Responds resp body =>
      match UnmarshalJSON rawOf respObj body with
      | (respObj', Some e) => (inr (FailedToUnmarshal e), respObj')
      | (respObj', None) => (inl resp, respObj')
      end
  end.

(** The state an attempt leaves behind. *)
Definition leave (done' : bool) (retries' : Z)
  (sct' : signedCertificateTimestamp) : loopState :=
  {| done := done'; retries := retries'; sct := sct' |}.

(** An exchange after which [postJSON] returns an error: a transport
    failure, or a body that does not decode. *)
Definition failsToPost (x : exchange) : bool :=
  match x with
  | Responds _ body =>
      match snd (UnmarshalJSON rawOf zeroSCT body) with
      | Some _ => true
      | None => false
      end
  | _ => true
  end.

(** The trace of a log that is tried [k + 1] times, with a wait of [d]
    before every attempt but the first. *)
Definition exhausted (ctLog : logDesc) (data : list byte) (d : Z) (k : nat)
  : list event :=
  Post (URI ctLog) data
    :: List.concat (repeat [Sleep d; Post (URI ctLog) data] k).

(** What the iteration for a log returns once its loop has ended. *)
Definition afterLoop (st : loopState) : run (option submitError) :=
  if negb (done st) then Returns (Some UnableToSubmitCertificate)
  else
    run* err := CheckSignature (sct st) in
    match err with
    | Some e => Returns (Some (BadSignature e))
    | None => Returns None
    end.

(** An event of a submission of [data] to the logs [logs]: a post of
    [data] to one of them, or a wait. *)
Definition eventFor (data : list byte) (logs : list logDesc) (ev : event)
  : Prop :=
  match ev with
  | Post uri data' => In uri (map URI logs) /\ data' = data
  | Sleep _ => True
  end.

Definition isPostTo (uri : string) (ev : event) : bool :=
  match ev with
  | Post uri' _ => String.eqb uri' uri
  | Sleep _ => false
  end.

Definition isSleep (ev : event) : bool :=
  match ev with
  | Post _ _ => false
  | Sleep _ => true
  end.

(** The attempts made to a log, and the waits, in a trace. *)
Definition attemptsTo (uri : string) (t : list event) : nat :=
  List.length (filter (isPostTo uri) t).

Definition waits (t : list event) : nat := List.length (filter isSleep t).

(** A failure of the transport: the request cannot be built, the exchange
    fails, or the body cannot be read. *)
Definition isTransportFailure (x : exchange) : bool :=
  match x with
  | NewRequestFails | DoFails | ReadAllFails => true
  | Responds _ _ => false
  end.

(** *** The decoder and the signature check *)

(** Whether decoding fails depends on the data alone, not on the
    target. *)
Lemma UnmarshalJSON_error_any_target
  (sct1 sct2 : signedCertificateTimestamp) (data : list byte) :
  snd (UnmarshalJSON rawOf sct1 data) = snd (UnmarshalJSON rawOf sct2 data).
Proof.
  unfold UnmarshalJSON. destruct (rawOf data) as [rawSCT|]; [|reflexivity].
  destruct (Base64.DecodeString (rawLogID rawSCT)) as [? [?|]];
    [reflexivity|].
  destruct (Base64.DecodeString (rawSignature rawSCT)) as [? [?|]];
    [reflexivity|].
  destruct (Base64.DecodeString (rawExtensions rawSCT)) as [? [?|]];
    reflexivity.
Qed.

(** A successful decoding overwrites all five fields. *)
Lemma UnmarshalJSON_ok_any_target
  (sct1 sct2 sct' : signedCertificateTimestamp) (data : list byte) :
  UnmarshalJSON rawOf sct1 data = (sct', None) ->
  UnmarshalJSON rawOf sct2 data = (sct', None).
Proof.
  unfold UnmarshalJSON. destruct (rawOf data) as [rawSCT|]; [|discriminate].
  destruct (Base64.DecodeString (rawLogID rawSCT)) as [? [?|]];
    [discriminate|].
  destruct (Base64.DecodeString (rawSignature rawSCT)) as [? [?|]];
    [discriminate|].
  destruct (Base64.DecodeString (rawExtensions rawSCT)) as [? [?|]];
    [discriminate|].
  cbn. now intros [= <-].
Qed.

Lemma CheckSignature_prefixed (sct : signedCertificateTimestamp)
  (b0 b1 l0 l1 : byte) (der : list byte) :
  Signature sct = b0 :: b1 :: l0 :: l1 :: der ->
  CheckSignature sct =
  if negb (Bytes.to_Z b0 =? sctHashSHA256)
  then Returns (Some (UnsupportedHashFunction b0))
  else if negb (Bytes.to_Z b1 =? sctSigECDSA)
  then Returns (Some (UnsupportedSignatureAlgorithm b1))
  else match Asn1.Unmarshal der with
       | Asn1.Err e => Returns (Some (FailedToParseSignature e))
       | Asn1.Ok (_, rest) =>
           if (0 <? List.length rest)%nat
           then Returns (Some TrailingGarbage)
           else Returns None
       end.
Proof.
  intros Hsig. unfold CheckSignature. rewrite Hsig. cbn.
  destruct (negb (Bytes.to_Z b0 =? sctHashSHA256)); [reflexivity|].
  destruct (negb (Bytes.to_Z b1 =? sctSigECDSA)); reflexivity.
Qed.

(** [CheckSignature] returns for every SCT: its index and slice expressions
    stay in bounds. *)
Lemma CheckSignature_returns (sct : signedCertificateTimestamp) :
  exists err, CheckSignature sct = Returns err.
Proof.
  destruct (Signature sct) as [|b0 [|b1 [|l0 [|l1 der]]]] eqn:Hsig;
    try (unfold CheckSignature; rewrite Hsig; cbn; now eauto).
  rewrite (CheckSignature_prefixed _ _ _ _ _ _ Hsig).
  destruct (negb (Bytes.to_Z b0 =? sctHashSHA256)); [eauto|].
  destruct (negb (Bytes.to_Z b1 =? sctSigECDSA)); [eauto|].
  destruct (Asn1.Unmarshal der) as [[rs rest]|e]; [|eauto].
  destruct (0 <? List.length rest)%nat; eauto.
Qed.

(** *** One attempt *)

Lemma postJSON_eq (uri : string) (data : list byte)
  (respObj : signedCertificateTimestamp) (w : World) :
  postJSON uri data respObj w
  = (Returns (postResult (fst (roundTrip w uri data)) respObj),
     snd (roundTrip w uri data), [Post uri data]).
Proof.
  unfold postJSON, bind, post, postResult.
  destruct (roundTrip w uri data) as [x w']. cbn [fst snd].
  destruct x as [| | |resp body]; try reflexivity.
  destruct (UnmarshalJSON rawOf respObj body) as [respObj' [e|]]; reflexivity.
Qed.

Section Attempt.
Variables (ct : CTConfig) (ctLog : logDesc) (data : list byte).
Variables (st : loopState) (w w' : World) (x : exchange).
Variable sct' : signedCertificateTimestamp.
Hypothesis Hx : roundTrip w (URI ctLog) data = (x, w').

(** A failed [postJSON]: retry after the configured backoff, or give up
    when the retries are used up. *)
Lemma attempt_post_error (e : postError) :
  postResult x (sct st) = (inr e, sct') ->
  attempt ct ctLog data st w =
  if retries st >=? SubmissionRetries ct
  then (Returns (Break, leave (done st) (retries st) sct'), w',
        [Post (URI ctLog) data])
  else (Returns (Continue, leave (done st) (incr (retries st)) sct'), w',
        [Post (URI ctLog) data; Sleep (SubmissionBackoff ct)]).
Proof using Hx.
  intros Hr. unfold attempt, bind at 1. rewrite postJSON_eq, Hx.
  cbn [fst snd]. rewrite Hr.
  destruct (retries st >=? SubmissionRetries ct); reflexivity.
Qed.

(** A 408 or 503 response: retry after [retryBackoff], or give up. *)
Lemma attempt_retryable_status (resp : Response) :
  postResult x (sct st) = (inl resp, sct') ->
  (StatusCode resp =? StatusRequestTimeout)
  || (StatusCode resp =? StatusServiceUnavailable) = true ->
  attempt ct ctLog data st w =
  if retries st >=? SubmissionRetries ct
  then (Returns (Break, leave (done st) (retries st) sct'), w',
        [Post (URI ctLog) data])
  else (Returns (Continue, leave (done st) (incr (retries st)) sct'), w',
        [Post (URI ctLog) data; Sleep (retryBackoff ct resp)]).
Proof using Hx.
  intros Hr Hstatus. unfold attempt, bind at 1. rewrite postJSON_eq, Hx.
  cbn [fst snd]. rewrite Hr, Hstatus.
  destruct (retries st >=? SubmissionRetries ct); reflexivity.
Qed.

(** Any other status than 200: the loop is left with [done] unchanged. *)
Lemma attempt_unexpected_status (resp : Response) :
  postResult x (sct st) = (inl resp, sct') ->
  (StatusCode resp =? StatusRequestTimeout)
  || (StatusCode resp =? StatusServiceUnavailable) = false ->
  (StatusCode resp =? StatusOK) = false ->
  attempt ct ctLog data st w =
  (Returns (Break, leave (done st) (retries st) sct'), w',
   [Post (URI ctLog) data]).
Proof using Hx.
  intros Hr Hstatus Hok. unfold attempt, bind at 1. rewrite postJSON_eq, Hx.
  cbn [fst snd]. rewrite Hr, Hstatus, Hok. reflexivity.
Qed.

(** Status 200: the loop is left with [done] set. *)
Lemma attempt_ok (resp : Response) :
  postResult x (sct st) = (inl resp, sct') ->
  (StatusCode resp =? StatusOK) = true ->
  attempt ct ctLog data st w =
  (Returns (Break, leave true (retries st) sct'), w',
   [Post (URI ctLog) data]).
Proof using Hx.
  intros Hr Hok. unfold attempt, bind at 1. rewrite postJSON_eq, Hx.
  cbn [fst snd]. rewrite Hr.
  apply Z.eqb_eq in Hok. rewrite Hok. reflexivity.
Qed.
End Attempt.

(** The decoding hook failed: what [postJSON] returns. *)
Lemma postResult_decode_error (resp : Response) (body : list byte)
  (respObj respObj' : signedCertificateTimestamp) (e : decodeError) :
  UnmarshalJSON rawOf respObj body = (respObj', Some e) ->
  postResult (Responds resp body) respObj
  = (inr (FailedToUnmarshal e), respObj').
Proof. intros H. cbn. now rewrite H. Qed.

Lemma postResult_decoded (resp : Response) (body : list byte)
  (respObj respObj' : signedCertificateTimestamp) :
  UnmarshalJSON rawOf respObj body = (respObj', None) ->
  postResult (Responds resp body) respObj = (inl resp, respObj').
Proof. intros H. cbn. now rewrite H. Qed.

(** Every attempt starts with its post. *)
Lemma attempt_posts_first (ct : CTConfig) (ctLog : logDesc)
  (data : list byte) (st : loopState) (w : World) :
  exists r w' t,
    attempt ct ctLog data st w = (r, w', Post (URI ctLog) data :: t).
Proof.
  destruct (roundTrip w (URI ctLog) data) as [x w'] eqn:Hx.
  destruct (postResult x (sct st)) as [[resp|e] sct'] eqn:Hr.
  - destruct ((StatusCode resp =? StatusRequestTimeout)
              || (StatusCode resp =? StatusServiceUnavailable)) eqn:Hs.
    + rewrite (attempt_retryable_status _ _ _ _ _ _ _ _ Hx _ Hr Hs).
      destruct (retries st >=? SubmissionRetries ct); eauto.
    + destruct (StatusCode resp =? StatusOK) eqn:Hok.
      * rewrite (attempt_ok _ _ _ _ _ _ _ _ Hx _ Hr Hok). eauto.
      * rewrite (attempt_unexpected_status _ _ _ _ _ _ _ _ Hx _ Hr Hs Hok).
        eauto.
  - rewrite (attempt_post_error _ _ _ _ _ _ _ _ Hx _ Hr).
    destruct (retries st >=? SubmissionRetries ct); eauto.
Qed.

(** Every attempt returns; when the loop continues, a retry was left and
    has been counted. *)
Lemma attempt_returns (ct : CTConfig) (ctLog : logDesc) (data : list byte)
  (st : loopState) (w : World) :
  exists c st' w' t,
    attempt ct ctLog data st w = (Returns (c, st'), w', t)
    /\ (c = Continue ->
        retries st < SubmissionRetries ct
        /\ retries st' = incr (retries st) /\ done st' = done st).
Proof.
  destruct (roundTrip w (URI ctLog) data) as [x w'] eqn:Hx.
  destruct (postResult x (sct st)) as [[resp|e] sct'] eqn:Hr.
  - destruct ((StatusCode resp =? StatusRequestTimeout)
              || (StatusCode resp =? StatusServiceUnavailable)) eqn:Hs.
    + rewrite (attempt_retryable_status _ _ _ _ _ _ _ _ Hx _ Hr Hs).
      destruct (Z.geb_spec (retries st) (SubmissionRetries ct));
        do 4 eexists; (split; [reflexivity|]); [discriminate|].
      intros _. cbn. auto.
    + destruct (StatusCode resp =? StatusOK) eqn:Hok.
      * rewrite (attempt_ok _ _ _ _ _ _ _ _ Hx _ Hr Hok).
        do 4 eexists; (split; [reflexivity|discriminate]).
      * rewrite (attempt_unexpected_status _ _ _ _ _ _ _ _ Hx _ Hr Hs Hok).
        do 4 eexists; (split; [reflexivity|discriminate]).
  - rewrite (attempt_post_error _ _ _ _ _ _ _ _ Hx _ Hr).
    destruct (Z.geb_spec (retries st) (SubmissionRetries ct));
      do 4 eexists; (split; [reflexivity|]); [discriminate|].
    intros _. cbn. auto.
Qed.

(** *** The loop *)

Lemma incr_small (r n : Z) : 0 <= r -> r < n -> n < 2 ^ 63 -> incr r = r + 1.
Proof.
  intros H0 Hr Hn. unfold incr, Strconv.int64.
  rewrite Z.mod_small by lia. lia.
Qed.

Section Loop.
Variables (ct : CTConfig) (ctLog : logDesc) (data : list byte).

Lemma retryLoop_exit (fuel : nat) (st : loopState) (w : World) :
  negb (done st) && (retries st <=? SubmissionRetries ct) = false ->
  retryLoop fuel ct ctLog data st w = (Returns st, w, []).
Proof.
  intros Hc. destruct fuel; cbn [retryLoop]; rewrite Hc; reflexivity.
Qed.

Lemma retryLoop_break (fuel : nat) (st st' : loopState) (w w' : World)
  (t : list event) :
  negb (done st) && (retries st <=? SubmissionRetries ct) = true ->
  attempt ct ctLog data st w = (Returns (Break, st'), w', t) ->
  retryLoop (S fuel) ct ctLog data st w = (Returns st', w', t).
Proof.
  intros Hc Ha. cbn [retryLoop]. rewrite Hc. unfold bind. rewrite Ha.
  cbn. now rewrite app_nil_r.
Qed.

Lemma retryLoop_continue (fuel : nat) (st st' : loopState) (w w' : World)
  (t : list event) :
  negb (done st) && (retries st <=? SubmissionRetries ct) = true ->
  attempt ct ctLog data st w = (Returns (Continue, st'), w', t) ->
  retryLoop (S fuel) ct ctLog data st w
  = let '(r, w2, t2) := retryLoop fuel ct ctLog data st' w' in
    (r, w2, t ++ t2).
Proof.
  intros Hc Ha. cbn [retryLoop]. rewrite Hc. unfold bind. rewrite Ha.
  reflexivity.
Qed.

(** The loop ends within [SubmissionRetries + 1 - retries] iterations:
    with that much fuel it returns. *)
Lemma retryLoop_returns (fuel : nat) :
  forall (st : loopState) (w : World),
    0 <= retries st ->
    SubmissionRetries ct < 2 ^ 63 ->
    (Z.to_nat (SubmissionRetries ct + 1 - retries st) <= fuel)%nat ->
    exists st' w' t,
      retryLoop fuel ct ctLog data st w = (Returns st', w', t).
Proof.
  induction fuel as [|fuel IH]; intros st w H0 Hn Hfuel;
    destruct (negb (done st) && (retries st <=? SubmissionRetries ct))
      eqn:Hc;
    try (rewrite (retryLoop_exit _ _ _ Hc); eauto).
  - apply andb_prop in Hc as [_ Hle]. apply Z.leb_le in Hle. lia.
  - destruct (attempt_returns ct ctLog data st w)
      as (c & st' & w' & t & Ha & Hcont).
    destruct c.
    + rewrite (retryLoop_continue _ _ _ _ _ _ Hc Ha).
      destruct (Hcont eq_refl) as (Hlt & Hr & _).
      rewrite (incr_small _ _ H0 Hlt Hn) in Hr.
      destruct (IH st' w') as (st2 & w2 & t2 & E); [lia|lia|lia|].
      rewrite E. eauto.
    + rewrite (retryLoop_break _ _ _ _ _ _ Hc Ha). eauto.
Qed.

Lemma failsToPost_postResult (x : exchange)
  (respObj : signedCertificateTimestamp) :
  failsToPost x = true ->
  exists e respObj', postResult x respObj = (inr e, respObj').
Proof.
  destruct x as [| | |resp body]; cbn; eauto.
  rewrite (UnmarshalJSON_error_any_target zeroSCT respObj).
  destruct (UnmarshalJSON rawOf respObj body) as [respObj' [e|]];
    cbn; [eauto|discriminate].
Qed.

(** When every exchange with the log fails to post, the loop makes one
    attempt for the current count and one for each retry left, waits the
    configured backoff between them, and ends with [done] unset. *)
Lemma retryLoop_exhausts (k : nat) :
  (forall w, failsToPost (fst (roundTrip w (URI ctLog) data)) = true) ->
  SubmissionRetries ct < 2 ^ 63 ->
  forall (fuel : nat) (st : loopState) (w : World),
    done st = false ->
    0 <= retries st <= SubmissionRetries ct ->
    k = Z.to_nat (SubmissionRetries ct - retries st) ->
    (k < fuel)%nat ->
    exists w' sct',
      retryLoop fuel ct ctLog data st w
      = (Returns (leave false (SubmissionRetries ct) sct'), w',
         exhausted ctLog data (SubmissionBackoff ct) k).
Proof.
  intros Hfail Hn.
  induction k as [|k IH]; intros fuel st w Hdone Hr Hk Hfuel;
    (destruct fuel as [|fuel]; [lia|]);
    assert (Hc : negb (done st) && (retries st <=? SubmissionRetries ct)
                 = true)
      by (rewrite Hdone; cbn; apply Z.leb_le; lia);
    destruct (roundTrip w (URI ctLog) data) as [x w'] eqn:Hx;
    pose proof (Hfail w) as Hf; rewrite Hx in Hf; cbn [fst] in Hf;
    destruct (failsToPost_postResult x (sct st) Hf) as (e & sct' & Hres);
    pose proof (attempt_post_error ct ctLog data st w w' x sct' Hx e Hres)
      as Ha.
  - assert (Heq : retries st = SubmissionRetries ct) by lia.
    assert (Hge : (retries st >=? SubmissionRetries ct) = true)
      by (apply Z.geb_le; lia).
    rewrite Hge in Ha. rewrite (retryLoop_break _ _ _ _ _ _ Hc Ha).
    exists w', sct'. rewrite Hdone, Heq. reflexivity.
  - assert (Hlt : retries st < SubmissionRetries ct) by lia.
    assert (Hge : (retries st >=? SubmissionRetries ct) = false)
      by (destruct (Z.geb_spec (retries st) (SubmissionRetries ct)); lia).
    rewrite Hge in Ha. rewrite (retryLoop_continue _ _ _ _ _ _ Hc Ha).
    rewrite (incr_small _ _ (proj1 Hr) Hlt Hn).
    destruct (IH fuel (leave (done st) (retries st + 1) sct') w')
      as (w2 & sct2 & E); cbn; try lia; [assumption|].
    rewrite E. exists w2, sct2. reflexivity.
Qed.
End Loop.

(** *** One log, then the list of logs *)

Lemma submitToLog_eq (ct : CTConfig) (data : list byte) (ctLog : logDesc)
  (w w' : World) (st : loopState) (t : list event) :
  retryLoop (enough ct) ct ctLog data (leave false 0 zeroSCT) w
  = (Returns st, w', t) ->
  submitToLog ct data ctLog w = (afterLoop st, w', t).
Proof.
  intros Hloop. unfold submitToLog, bind at 1. fold (leave false 0 zeroSCT).
  rewrite Hloop. unfold afterLoop.
  destruct (negb (done st)); cbn; [now rewrite app_nil_r|].
  unfold bind, lift.
  destruct (CheckSignature (sct st)) as [[e|]| |];
    cbn; now rewrite ?app_nil_r.
Qed.

Lemma submitToLogs_cons_error (ct : CTConfig) (data : list byte)
  (ctLog : logDesc) (logs : list logDesc) (w w' : World) (e : submitError)
  (t : list event) :
  submitToLog ct data ctLog w = (Returns (Some e), w', t) ->
  submitToLogs ct data (ctLog :: logs) w = (Returns (Some e), w', t).
Proof.
  intros H. cbn [submitToLogs]. unfold bind. rewrite H. cbn.
  now rewrite app_nil_r.
Qed.

Lemma submitToLogs_app (ct : CTConfig) (data : list byte)
  (pre rest : list logDesc) :
  forall (w w1 : World) (t1 : list event),
    submitToLogs ct data pre w = (Returns None, w1, t1) ->
    submitToLogs ct data (pre ++ rest) w
    = let '(r, w2, t2) := submitToLogs ct data rest w1 in (r, w2, t1 ++ t2).
Proof.
  induction pre as [|ctLog pre IH]; intros w w1 t1.
  - cbn. intros [= <- <-].
    now destruct (submitToLogs ct data rest w) as [[r w2] t2].
  - change ((ctLog :: pre) ++ rest) with (ctLog :: (pre ++ rest)).
    cbn [submitToLogs]. unfold bind.
    destruct (submitToLog ct data ctLog w) as [[[[e|]| |] w0] t0];
      cbn; try discriminate.
    destruct (submitToLogs ct data pre w0) as [[r' w'] t'] eqn:Hpre.
    intros [= -> -> <-].
    rewrite (IH _ _ _ Hpre).
    destruct (submitToLogs ct data rest w1) as [[r w2] t2].
    now rewrite app_assoc.
Qed.

(** *** The events of a run *)

Lemma eventFor_incl (data : list byte) (logs logs' : list logDesc)
  (t : list event) :
  incl logs logs' ->
  Forall (eventFor data logs) t -> Forall (eventFor data logs') t.
Proof.
  intros Hincl. apply Forall_impl. intros [uri d|d]; cbn; [|trivial].
  intros [Hin ->]. split; [|reflexivity].
  apply in_map_iff in Hin as (l & <- & Hl). apply in_map. now apply Hincl.
Qed.

Lemma attempt_events (ct : CTConfig) (ctLog : logDesc) (data : list byte)
  (st : loopState) (w : World) :
  Forall (eventFor data [ctLog]) (snd (attempt ct ctLog data st w)).
Proof.
  assert (Hpost : eventFor data [ctLog] (Post (URI ctLog) data))
    by (cbn; auto).
  destruct (roundTrip w (URI ctLog) data) as [x w'] eqn:Hx.
  destruct (postResult x (sct st)) as [[resp|e] sct'] eqn:Hr.
  - destruct ((StatusCode resp =? StatusRequestTimeout)
              || (StatusCode resp =? StatusServiceUnavailable)) eqn:Hs.
    + rewrite (attempt_retryable_status _ _ _ _ _ _ _ _ Hx _ Hr Hs).
      destruct (retries st >=? SubmissionRetries ct); cbn;
        repeat constructor; auto.
    + destruct (StatusCode resp =? StatusOK) eqn:Hok.
      * rewrite (attempt_ok _ _ _ _ _ _ _ _ Hx _ Hr Hok).
        cbn. repeat constructor; auto.
      * rewrite (attempt_unexpected_status _ _ _ _ _ _ _ _ Hx _ Hr Hs Hok).
        cbn. repeat constructor; auto.
  - rewrite (attempt_post_error _ _ _ _ _ _ _ _ Hx _ Hr).
    destruct (retries st >=? SubmissionRetries ct); cbn;
      repeat constructor; auto.
Qed.

Lemma retryLoop_events (ct : CTConfig) (ctLog : logDesc) (data : list byte)
  (fuel : nat) :
  forall (st : loopState) (w : World),
    Forall (eventFor data [ctLog]) (snd (retryLoop fuel ct ctLog data st w)).
Proof.
  induction fuel as [|fuel IH]; intros st w; cbn [retryLoop];
    destruct (negb (done st) && (retries st <=? SubmissionRetries ct));
    try (cbn; constructor).
  unfold bind. pose proof (attempt_events ct ctLog data st w) as Ha.
  destruct (attempt ct ctLog data st w) as [[[[c st']| |] w'] t];
    cbn [snd] in *; try assumption.
  destruct c.
  - specialize (IH st' w').
    destruct (retryLoop fuel ct ctLog data st' w') as [[r w2] t2].
    cbn [snd] in *. apply Forall_app. auto.
  - cbn. now rewrite app_nil_r.
Qed.

Lemma submitToLog_events (ct : CTConfig) (data : list byte)
  (ctLog : logDesc) (w : World) :
  Forall (eventFor data [ctLog]) (snd (submitToLog ct data ctLog w)).
Proof.
  unfold submitToLog, bind at 1. fold (leave false 0 zeroSCT).
  pose proof (retryLoop_events ct ctLog data (enough ct)
                (leave false 0 zeroSCT) w) as Hl.
  destruct (retryLoop (enough ct) ct ctLog data (leave false 0 zeroSCT) w)
    as [[[st| |] w'] t]; cbn [snd] in *; try assumption.
  destruct (negb (done st)); cbn; [now rewrite app_nil_r|].
  unfold bind, lift.
  destruct (CheckSignature (sct st)) as [[e|]| |];
    cbn; now rewrite ?app_nil_r.
Qed.

Lemma submitToLogs_events (ct : CTConfig) (data : list byte)
  (logs : list logDesc) :
  forall w : World,
    Forall (eventFor data logs) (snd (submitToLogs ct data logs w)).
Proof.
  induction logs as [|ctLog logs IH]; intros w; cbn [submitToLogs].
  - constructor.
  - unfold bind at 1.
    pose proof (submitToLog_events ct data ctLog w) as Hl.
    apply (eventFor_incl data [ctLog] (ctLog :: logs)) in Hl;
      [|intros l [<-|[]]; now left].
    destruct (submitToLog ct data ctLog w) as [[[[e|]| |] w'] t];
      cbn [snd] in *; try assumption.
    + cbn. now rewrite app_nil_r.
    + specialize (IH w').
      apply (eventFor_incl data logs (ctLog :: logs)) in IH;
        [|intros l Hl'; now right].
      destruct (submitToLogs ct data logs w') as [[r w2] t2].
      cbn [snd] in *. apply Forall_app. auto.
Qed.

(** *** Termination

    With a retry count that is an [int], [SubmitToCT] returns in every
    environment: the fuel of the loops is never used up and nothing
    panics. *)
Lemma submitToLog_returns (ct : CTConfig) (data : list byte)
  (ctLog : logDesc) (w : World) :
  SubmissionRetries ct < 2 ^ 63 ->
  exists err w' t, submitToLog ct data ctLog w = (Returns err, w', t).
Proof.
  intros Hn.
  destruct (retryLoop_returns ct ctLog data (enough ct)
              (leave false 0 zeroSCT) w) as (st & w' & t & Hloop);
    [cbn; lia|assumption|unfold enough; cbn; lia|].
  rewrite (submitToLog_eq _ _ _ _ _ _ _ Hloop). unfold afterLoop.
  destruct (negb (done st)); [eauto|].
  destruct (CheckSignature_returns (sct st)) as [[e|] ->]; cbn; eauto.
Qed.

Lemma submitToLogs_returns (ct : CTConfig) (data : list byte)
  (logs : list logDesc) :
  SubmissionRetries ct < 2 ^ 63 ->
  forall w : World,
    exists err w' t, submitToLogs ct data logs w = (Returns err, w', t).
Proof.
  intros Hn. induction logs as [|ctLog logs IH]; intros w.
  - cbn. eauto.
  - cbn [submitToLogs]. unfold bind at 1.
    destruct (submitToLog_returns ct data ctLog w Hn)
      as ([e|] & w' & t & ->).
    + cbn. eauto.
    + destruct (IH w') as (err & w2 & t2 & ->). eauto.
Qed.

(** X9.  With a retry count in the range of [int], [SubmitToCT] returns
    in every environment, whatever the logs answer and however often: the
    retry loops end and nothing panics. *)
Lemma SubmitToCT_returns (pub : PublisherAuthorityImpl) (cert : Certificate)
  (w : World) :
  (forall ct, CT pub = Some ct -> SubmissionRetries ct < 2 ^ 63) ->
  exists err w' t, SubmitToCT pub cert w = (Returns err, w', t).
Proof.
  intros Hn. unfold SubmitToCT. destruct (CT pub) as [ct|]; [|cbn; eauto].
  destruct (marshal (submissionOf ct cert)); [|cbn; eauto].
  apply submitToLogs_returns. now apply Hn.
Qed.

(** *** The outcome of a submission *)

Lemma exhausted_counts (ctLog : logDesc) (data : list byte) (d : Z)
  (k : nat) :
  attemptsTo (URI ctLog) (exhausted ctLog data d k) = S k
  /\ waits (exhausted ctLog data d k) = k
  /\ last (exhausted ctLog data d k) (Sleep 0) = Post (URI ctLog) data.
Proof.
  unfold exhausted, attemptsTo, waits. cbn [filter isPostTo isSleep].
  rewrite String.eqb_refl. cbn [List.length].
  induction k as [|k (IHa & IHw & IHl)]; [cbn; auto|].
  cbn [repeat List.concat app filter isPostTo isSleep].
  rewrite String.eqb_refl. cbn [List.length].
  repeat split; [congruence|congruence|].
  cbn [last] in *.
  destruct (List.concat (repeat [Sleep d; Post (URI ctLog) data] k));
    [reflexivity|assumption].
Qed.

Lemma isTransportFailure_failsToPost (x : exchange) :
  isTransportFailure x = true -> failsToPost x = true.
Proof. destruct x; [reflexivity..|discriminate]. Qed.

Lemma SubmitToCT_eq (pub : PublisherAuthorityImpl) (ct : CTConfig)
  (cert : Certificate) (data : list byte) (w : World) :
  CT pub = Some ct ->
  marshal (submissionOf ct cert) = Some data ->
  SubmitToCT pub cert w = submitToLogs ct data (Logs ct) w.
Proof. intros Hct Hdata. unfold SubmitToCT. now rewrite Hct, Hdata. Qed.

(** The first answer of a log decides when it is a response, with a body
    that decodes, whose status is neither 408 nor 503: at status 200 the
    signature is checked, and any other status is an error, after this one
    post. *)
Lemma submitToLog_first_answer (ct : CTConfig) (data : list byte)
  (ctLog : logDesc) (w w' : World) (resp : Response) (body : list byte)
  (sct' : signedCertificateTimestamp) :
  0 <= SubmissionRetries ct ->
  roundTrip w (URI ctLog) data = (Responds resp body, w') ->
  UnmarshalJSON rawOf zeroSCT body = (sct', None) ->
  (StatusCode resp =? StatusRequestTimeout)
  || (StatusCode resp =? StatusServiceUnavailable) = false ->
  submitToLog ct data ctLog w
  = (afterLoop (leave (StatusCode resp =? StatusOK) 0 sct'), w',
     [Post (URI ctLog) data]).
Proof.
  intros Hn Hx Hdec Hs. apply submitToLog_eq. unfold enough.
  assert (Hc : negb (done (leave false 0 zeroSCT))
               && (retries (leave false 0 zeroSCT) <=? SubmissionRetries ct)
               = true) by (cbn; apply Z.leb_le; lia).
  apply (retryLoop_break _ _ _ _ _ _ _ _ _ Hc).
  destruct (StatusCode resp =? StatusOK) eqn:Hok.
  - apply (attempt_ok ct ctLog data (leave false 0 zeroSCT) w w' _ sct'
             Hx resp); [now apply postResult_decoded|assumption].
  - apply (attempt_unexpected_status ct ctLog data (leave false 0 zeroSCT)
             w w' _ sct' Hx resp);
      [now apply postResult_decoded|assumption|assumption].
Qed.

(** X18.  Every post of a run carries the marshalled submission request
    and goes to a configured log, in every environment. *)
Lemma SubmitToCT_posts_payload (pub : PublisherAuthorityImpl)
  (ct : CTConfig) (cert : Certificate) (data : list byte) (w : World) :
  CT pub = Some ct ->
  marshal (submissionOf ct cert) = Some data ->
  Forall (eventFor data (Logs ct)) (snd (SubmitToCT pub cert w)).
Proof.
  intros Hct Hdata. rewrite (SubmitToCT_eq _ _ _ _ _ Hct Hdata).
  apply submitToLogs_events.
Qed.

(** C2.  Let the maximum retry count be N >= 0, and let every exchange
    with a log fail with a transport error, the logs before it in the list
    having accepted the certificate.  Then [SubmitToCT] makes exactly N + 1
    attempts to that log and N waits of the configured backoff, one between
    each two consecutive attempts and none after the last attempt, and
    returns the error for a certificate that could not be submitted. *)
Theorem SubmitToCT_retries_exhausted
  (pub : PublisherAuthorityImpl) (ct : CTConfig) (cert : Certificate)
  (data : list byte) (pre post : list logDesc) (ctLog : logDesc)
  (w w1 : World) (t1 : list event) :
  CT pub = Some ct ->
  marshal (submissionOf ct cert) = Some data ->
  0 <= SubmissionRetries ct < 2 ^ 63 ->
  Logs ct = pre ++ ctLog :: post ->
  submitToLogs ct data pre w = (Returns None, w1, t1) ->
  (forall w, isTransportFailure (fst (roundTrip w (URI ctLog) data)) = true) ->
  exists w2 t2,
    SubmitToCT pub cert w
    = (Returns (Some UnableToSubmitCertificate), w2, t1 ++ t2)
    /\ t2 = Post (URI ctLog) data
            :: List.concat
                 (repeat [Sleep (SubmissionBackoff ct); Post (URI ctLog) data]
                         (Z.to_nat (SubmissionRetries ct)))
    /\ Z.of_nat (attemptsTo (URI ctLog) t2) = SubmissionRetries ct + 1
    /\ Z.of_nat (waits t2) = SubmissionRetries ct
    /\ last t2 (Sleep 0) = Post (URI ctLog) data.
Proof.
  intros Hct Hdata Hn Hlogs Hpre Hfail.
  destruct (retryLoop_exhausts ct ctLog data
              (Z.to_nat (SubmissionRetries ct))
              (fun w => isTransportFailure_failsToPost _ (Hfail w))
              (proj2 Hn) (enough ct) (leave false 0 zeroSCT) w1)
    as (w2 & sct' & Hloop);
    [reflexivity | cbn; lia | cbn; f_equal; lia | unfold enough; lia |].
  exists w2, (exhausted ctLog data (SubmissionBackoff ct)
                (Z.to_nat (SubmissionRetries ct))).
  destruct (exhausted_counts ctLog data (SubmissionBackoff ct)
              (Z.to_nat (SubmissionRetries ct))) as (Ha & Hw & Hl).
  rewrite Ha, Hw, Hl. repeat split; try lia.
  rewrite (SubmitToCT_eq _ _ _ _ _ Hct Hdata), Hlogs.
  rewrite (submitToLogs_app _ _ _ _ _ _ _ Hpre).
  rewrite (submitToLogs_cons_error ct data ctLog post w1 w2
             UnableToSubmitCertificate
             (exhausted ctLog data (SubmissionBackoff ct)
                (Z.to_nat (SubmissionRetries ct)))); [reflexivity|].
  rewrite (submitToLog_eq _ _ _ _ _ _ _ Hloop). reflexivity.
Qed.

(** C3.  When a log of the list fails, the logs before it having accepted
    the certificate, [SubmitToCT] returns the error of that log's iteration
    (the loop gave up, or the signature check failed) and the run ends with
    the events of that log: every post of the run goes to the failing log
    or to a log before it, none to a log after it.  The result is an error
    and nothing else; there are no per-log results. *)
Theorem SubmitToCT_aborts_at_failing_log
  (pub : PublisherAuthorityImpl) (ct : CTConfig) (cert : Certificate)
  (data : list byte) (pre post : list logDesc) (ctLog : logDesc)
  (w w1 w2 : World) (t1 t2 : list event) (e : submitError) :
  CT pub = Some ct ->
  marshal (submissionOf ct cert) = Some data ->
  Logs ct = pre ++ ctLog :: post ->
  submitToLogs ct data pre w = (Returns None, w1, t1) ->
  submitToLog ct data ctLog w1 = (Returns (Some e), w2, t2) ->
  SubmitToCT pub cert w = (Returns (Some e), w2, t1 ++ t2)
  /\ Forall (eventFor data (pre ++ [ctLog])) (t1 ++ t2)
  /\ Forall (eventFor data [ctLog]) t2
  /\ (e = UnableToSubmitCertificate \/ exists se, e = BadSignature se).
Proof.
  intros Hct Hdata Hlogs Hpre Hlog.
  assert (Hrun : SubmitToCT pub cert w = (Returns (Some e), w2, t1 ++ t2)).
  { rewrite (SubmitToCT_eq _ _ _ _ _ Hct Hdata), Hlogs.
    rewrite (submitToLogs_app _ _ _ _ _ _ _ Hpre).
    now rewrite (submitToLogs_cons_error _ _ _ _ _ _ _ _ Hlog). }
  assert (Ht2 : Forall (eventFor data [ctLog]) t2).
  { pose proof (submitToLog_events ct data ctLog w1) as H.
    now rewrite Hlog in H. }
  repeat split; try assumption.
  - apply Forall_app. split.
    + pose proof (submitToLogs_events ct data pre w) as H.
      rewrite Hpre in H. cbn [snd] in H.
      apply (eventFor_incl data pre); [|assumption].
      intros l Hl. apply in_or_app. now left.
    + apply (eventFor_incl data [ctLog]); [|assumption].
      intros l Hl. apply in_or_app. now right.
  - revert Hlog. unfold submitToLog, bind at 1.
    destruct (retryLoop _ _ _ _ _ _) as [[[st| |] w'] t]; try discriminate.
    destruct (negb (done st)); cbn; [intros [= <- _ _]; now left|].
    unfold bind, lift.
    destruct (CheckSignature (sct st)) as [[se|]| |]; cbn;
      try discriminate.
    intros [= <- _ _]. right. eauto.
Qed.

(** C4, as the code has it.  An attempt whose response body does not
    decode (malformed JSON, or a malformed base64 field) is handled like a
    failed transport.  While retries are left, the loop waits the
    configured backoff and makes a further attempt to the same log.  When
    none is left, the loop ends after this attempt with [done] unset, and
    the iteration for the log returns the error for a certificate that
    could not be submitted, not the decode error. *)
Theorem decode_error_is_retried
  (ct : CTConfig) (ctLog : logDesc) (data : list byte) (st : loopState)
  (w w' : World) (resp : Response) (body : list byte)
  (sct' : signedCertificateTimestamp) (e : decodeError) (fuel : nat) :
  roundTrip w (URI ctLog) data = (Responds resp body, w') ->
  UnmarshalJSON rawOf (sct st) body = (sct', Some e) ->
  done st = false ->
  0 <= retries st <= SubmissionRetries ct ->
  SubmissionRetries ct < 2 ^ 63 ->
  (retries st < SubmissionRetries ct ->
   exists r w2 t,
     retryLoop (S (S fuel)) ct ctLog data st w
     = (r, w2,
        Post (URI ctLog) data :: Sleep (SubmissionBackoff ct)
          :: Post (URI ctLog) data :: t))
  /\ (retries st = SubmissionRetries ct ->
      retryLoop (S fuel) ct ctLog data st w
      = (Returns (leave false (retries st) sct'), w',
         [Post (URI ctLog) data])
      /\ afterLoop (leave false (retries st) sct')
         = Returns (Some UnableToSubmitCertificate)).
Proof.
  intros Hx Hdec Hdone Hr Hn.
  assert (Hc : negb (done st) && (retries st <=? SubmissionRetries ct)
               = true)
    by (rewrite Hdone; cbn; apply Z.leb_le; lia).
  pose proof (attempt_post_error ct ctLog data st w w' _ sct' Hx _
                (postResult_decode_error resp body _ _ e Hdec)) as Ha.
  split.
  - intros Hlt.
    assert (Hge : (retries st >=? SubmissionRetries ct) = false)
      by (destruct (Z.geb_spec (retries st) (SubmissionRetries ct)); lia).
    rewrite Hge in Ha. rewrite (retryLoop_continue _ _ _ _ _ _ _ _ _ Hc Ha).
    rewrite (incr_small _ _ (proj1 Hr) Hlt Hn), Hdone.
    cbn [retryLoop leave done retries sct].
    replace (retries st + 1 <=? SubmissionRetries ct) with true
      by (symmetry; apply Z.leb_le; lia).
    cbn [negb andb]. unfold bind at 1.
    destruct (attempt_posts_first ct ctLog data
                (leave false (retries st + 1) sct') w')
      as (r1 & w1 & t1 & ->).
    destruct r1 as [[c st1]| |].
    + destruct (_ w1) as [[r2 w2] t2]. cbn. eauto.
    + cbn. eauto.
    + cbn. eauto.
  - intros Heq.
    assert (Hge : (retries st >=? SubmissionRetries ct) = true)
      by (apply Z.geb_le; lia).
    rewrite Hge in Ha. rewrite (retryLoop_break _ _ _ _ _ _ _ _ _ Hc Ha).
    rewrite Hdone. split; reflexivity.
Qed.

(** A Retry-After header that [Atoi] reads without error is not used: the
    wait stays the configured backoff. *)
Lemma retryBackoff_parsed (ct : CTConfig) (resp : Response) (v : Z) :
  Strconv.Atoi (Get (Header resp) "Retry-After") = (v, None) ->
  retryBackoff ct resp = SubmissionBackoff ct.
Proof.
  intros Hatoi. unfold retryBackoff. rewrite Hatoi.
  now destruct (negb _).
Qed.

(** C8, as the code has it.  At a 408 or 503 response whose body decodes
    as an SCT, and with a retry left, the loop waits, then continues.  When
    the Retry-After header is absent or empty the wait is the configured
    backoff.  When it is present and [Atoi] fails on it, the wait is the
    value [Atoi] returns with its error, times one second, in 64-bit
    arithmetic: exactly zero after a syntax error; after a range error,
    minus one second (the largest [int] by 10^9 wraps around) or zero (the
    least [int]).  In each of these cases the duration is not positive, so
    the sleep does not pause, whatever the configured backoff. *)
Theorem retry_after_unparsable_or_absent
  (ct : CTConfig) (ctLog : logDesc) (data : list byte) (st : loopState)
  (w w' : World) (resp : Response) (body : list byte)
  (sct' : signedCertificateTimestamp) :
  roundTrip w (URI ctLog) data = (Responds resp body, w') ->
  UnmarshalJSON rawOf (sct st) body = (sct', None) ->
  StatusCode resp = StatusRequestTimeout
  \/ StatusCode resp = StatusServiceUnavailable ->
  retries st < SubmissionRetries ct ->
  (Get (Header resp) "Retry-After" = EmptyString ->
   attempt ct ctLog data st w
   = (Returns (Continue, leave (done st) (incr (retries st)) sct'), w',
      [Post (URI ctLog) data; Sleep (SubmissionBackoff ct)]))
  /\ (forall (v : Z) (e : Strconv.NumError),
      Get (Header resp) "Retry-After" <> EmptyString ->
      Strconv.Atoi (Get (Header resp) "Retry-After") = (v, Some e) ->
      attempt ct ctLog data st w
      = (Returns (Continue, leave (done st) (incr (retries st)) sct'), w',
         [Post (URI ctLog) data; Sleep (Time.mul Time.Second v)])
      /\ (e = Strconv.ErrSyntax -> v = 0 /\ Time.mul Time.Second v = 0)
      /\ (e = Strconv.ErrRange ->
          (v = 2 ^ 63 - 1 /\ Time.mul Time.Second v = - Time.Second)
          \/ (v = - 2 ^ 63 /\ Time.mul Time.Second v = 0))
      /\ Time.paused (Time.mul Time.Second v) = 0).
Proof.
  intros Hx Hdec Hstatus Hlt.
  assert (Hs : (StatusCode resp =? StatusRequestTimeout)
               || (StatusCode resp =? StatusServiceUnavailable) = true).
  { apply orb_true_iff. rewrite !Z.eqb_eq. exact Hstatus. }
  pose proof (attempt_retryable_status ct ctLog data st w w' _ sct' Hx _
                (postResult_decoded resp body _ _ Hdec) Hs) as Ha.
  replace (retries st >=? SubmissionRetries ct) with false in Ha
    by (destruct (Z.geb_spec (retries st) (SubmissionRetries ct)); lia).
  split.
  - intros Habsent. rewrite Ha. unfold retryBackoff. now rewrite Habsent.
  - intros v e Hpresent Hatoi.
    assert (Hb : retryBackoff ct resp = Time.mul Time.Second v).
    { unfold retryBackoff. rewrite Hatoi.
      destruct (String.eqb_spec (Get (Header resp) "Retry-After")
                  EmptyString) as [E|E]; [contradiction|reflexivity]. }
    rewrite Ha, Hb. split; [reflexivity|].
    destruct (Strconv.Atoi_err _ _ _ Hatoi) as [[-> ->]|[-> [->| ->]]].
    + split; [intros _; split; reflexivity|].
      split; [discriminate|reflexivity].
    + split; [discriminate|].
      split; [intros _; left; split; vm_compute; reflexivity|].
      vm_compute; reflexivity.
    + split; [discriminate|].
      split; [intros _; right; split; vm_compute; reflexivity|].
      vm_compute; reflexivity.
Qed.

(** *** The shape of every run

    What follows holds in every environment: whatever the network answers
    and whatever the codec decodes. *)

(** The posts of a trace, to any log. *)
Definition isPost (ev : event) : bool :=
  match ev with
  | Post _ _ => true
  | Sleep _ => false
  end.

Definition posts (t : list event) : nat := List.length (filter isPost t).

(** The retries of a log: each wait, then the attempt that follows it. *)
Definition retried (ctLog : logDesc) (data : list byte) (ds : list Z)
  : list event :=
  List.concat (map (fun d => [Sleep d; Post (URI ctLog) data]) ds).

(** Every wait of the trace stands between two attempts to the same log,
    and the trace does not start with a wait. *)
Fixpoint paced (t : list event) : bool :=
  match t with
  | [] => true
  | Sleep _ :: _ => false
  | Post uri _ :: t' =>
      match t' with
      | Sleep _ :: t'' =>
          match t'' with
          | Post uri' _ :: _ => String.eqb uri uri' && paced t''
          | _ => false
          end
      | _ => paced t'
      end
  end.

Lemma postResult_inl (x : exchange) (respObj sct' : signedCertificateTimestamp)
  (resp : Response) :
  postResult x respObj = (inl resp, sct') ->
  exists body,
    x = Responds resp body
    /\ UnmarshalJSON rawOf respObj body = (sct', None).
Proof.
  destruct x as [| | |resp0 body]; cbn; try discriminate.
  destruct (UnmarshalJSON rawOf respObj body) as [respObj' [e|]] eqn:E;
    [discriminate|].
  intros [= -> ->]. eauto.
Qed.

(** An attempt is a post, followed by a wait exactly when the loop
    continues; it sets [done] only at a 200 response whose body decoded. *)
Lemma attempt_shape (ct : CTConfig) (ctLog : logDesc) (data : list byte)
  (st : loopState) (w : World) :
  exists c st' w' tl,
    attempt ct ctLog data st w
    = (Returns (c, st'), w', Post (URI ctLog) data :: tl)
    /\ ((c = Break /\ tl = [])
        \/ (c = Continue /\ (exists d, tl = [Sleep d])
            /\ retries st < SubmissionRetries ct
            /\ retries st' = incr (retries st) /\ done st' = done st))
    /\ (done st = false -> done st' = true ->
        exists resp body,
          roundTrip w (URI ctLog) data = (Responds resp body, w')
          /\ StatusCode resp = StatusOK
          /\ UnmarshalJSON rawOf (sct st) body = (sct st', None)).
Proof.
  destruct (roundTrip w (URI ctLog) data) as [x w'] eqn:Hx.
  destruct (postResult x (sct st)) as [[resp|e] sct'] eqn:Hr.
  - destruct ((StatusCode resp =? StatusRequestTimeout)
              || (StatusCode resp =? StatusServiceUnavailable)) eqn:Hs.
    + rewrite (attempt_retryable_status _ _ _ _ _ _ _ _ Hx _ Hr Hs).
      destruct (Z.geb_spec (retries st) (SubmissionRetries ct));
        do 4 eexists; (split; [reflexivity|]); cbn;
        (split; [|congruence]); [now left|right].
      repeat split; eauto; lia.
    + destruct (StatusCode resp =? StatusOK) eqn:Hok.
      * rewrite (attempt_ok _ _ _ _ _ _ _ _ Hx _ Hr Hok).
        do 4 eexists. split; [reflexivity|]. split; [now left|].
        intros _ _. cbn.
        destruct (postResult_inl _ _ _ _ Hr) as (body & -> & Hdec).
        exists resp, body. apply Z.eqb_eq in Hok. auto.
      * rewrite (attempt_unexpected_status _ _ _ _ _ _ _ _ Hx _ Hr Hs Hok).
        do 4 eexists. split; [reflexivity|]. cbn.
        split; [now left|congruence].
  - rewrite (attempt_post_error _ _ _ _ _ _ _ _ Hx _ Hr).
    destruct (Z.geb_spec (retries st) (SubmissionRetries ct));
      do 4 eexists; (split; [reflexivity|]); cbn;
      (split; [|congruence]); [now left|right].
    repeat split; eauto; lia.
Qed.

(** The loop of a log, with fuel enough: no attempt at all when the loop
    test fails at once; otherwise a first attempt and then retries, each
    after a wait, no more of them than the retries left.  The loop ends
    with [done] set only after a 200 response whose body decodes, and the
    SCT it leaves is that body's, as decoded into a fresh SCT. *)
Lemma retryLoop_shape (ct : CTConfig) (ctLog : logDesc) (data : list byte)
  (fuel : nat) :
  forall (st : loopState) (w : World),
    0 <= retries st ->
    SubmissionRetries ct < 2 ^ 63 ->
    (Z.to_nat (SubmissionRetries ct + 1 - retries st) <= fuel)%nat ->
    exists st' w' t,
      retryLoop fuel ct ctLog data st w = (Returns st', w', t)
      /\ ((t = [] /\ st' = st /\ w' = w
           /\ negb (done st) && (retries st <=? SubmissionRetries ct) = false)
          \/ (exists ds,
                 t = Post (URI ctLog) data :: retried ctLog data ds
                 /\ Z.of_nat (List.length ds)
                    <= SubmissionRetries ct - retries st))
      /\ (done st = false -> done st' = true ->
          exists w0 resp body,
            roundTrip w0 (URI ctLog) data = (Responds resp body, w')
            /\ StatusCode resp = StatusOK
            /\ UnmarshalJSON rawOf zeroSCT body = (sct st', None)).
Proof.
  induction fuel as [|fuel IH]; intros st w H0 Hn Hfuel;
    destruct (negb (done st) && (retries st <=? SubmissionRetries ct))
      eqn:Hc;
    try (rewrite (retryLoop_exit _ _ _ _ _ _ Hc);
         exists st, w, []; split; [reflexivity|];
         split; [now left|congruence]).
  - apply andb_prop in Hc as [_ Hle]. apply Z.leb_le in Hle. lia.
  - pose proof Hc as Hc'. apply andb_prop in Hc' as [Hd Hle].
    apply negb_true_iff in Hd. apply Z.leb_le in Hle.
    destruct (attempt_shape ct ctLog data st w)
      as (c & st1 & w1 & tl & Ha & Hshape & Hdone).
    destruct Hshape as [[-> ->]|(-> & [d ->] & Hlt & Hr & Hd1)].
    + rewrite (retryLoop_break _ _ _ _ _ _ _ _ _ Hc Ha).
      exists st1, w1, [Post (URI ctLog) data].
      split; [reflexivity|]. split.
      * right. exists []. split; [reflexivity|]. cbn. lia.
      * intros _ Hst1.
        destruct (Hdone Hd Hst1) as (resp & body & Hx & Hok & Hdec).
        exists w, resp, body. repeat split; try assumption.
        now apply (UnmarshalJSON_ok_any_target (sct st)).
    + rewrite (retryLoop_continue _ _ _ _ _ _ _ _ _ Hc Ha).
      rewrite (incr_small _ _ H0 Hlt Hn) in Hr.
      destruct (IH st1 w1) as (st2 & w2 & t2 & E & Hshape2 & Hdone2);
        [lia|lia|lia|].
      rewrite E. exists st2, w2,
        ([Post (URI ctLog) data; Sleep d] ++ t2).
      split; [reflexivity|]. split.
      * right. destruct Hshape2 as [(_ & _ & _ & Hc2)|(ds & -> & Hlen)].
        { rewrite Hd1, Hd, Hr in Hc2. cbn in Hc2.
          apply Z.leb_gt in Hc2. lia. }
        exists (d :: ds). split; [reflexivity|].
        cbn [List.length]. lia.
      * intros _ Hst2. apply Hdone2; [congruence|assumption].
Qed.

Lemma posts_app (t1 t2 : list event) :
  posts (t1 ++ t2) = (posts t1 + posts t2)%nat.
Proof. unfold posts. now rewrite filter_app, length_app. Qed.

Lemma waits_app (t1 t2 : list event) :
  waits (t1 ++ t2) = (waits t1 + waits t2)%nat.
Proof. unfold waits. now rewrite filter_app, length_app. Qed.

Lemma retried_counts (ctLog : logDesc) (data : list byte) (ds : list Z) :
  posts (retried ctLog data ds) = List.length ds
  /\ waits (retried ctLog data ds) = List.length ds.
Proof.
  unfold retried. induction ds as [|d ds [IHp IHw]]; [now cbn|].
  cbn [map List.concat]. rewrite posts_app, waits_app, IHp, IHw.
  now cbn.
Qed.

Lemma paced_log (ctLog : logDesc) (data : list byte) (ds : list Z)
  (t : list event) :
  paced t = true ->
  paced (Post (URI ctLog) data :: retried ctLog data ds ++ t) = true.
Proof.
  intros Ht. induction ds as [|d ds IH].
  - cbn [retried map List.concat app].
    destruct t as [|[u b|d] t]; [reflexivity|exact Ht|discriminate].
  - change (retried ctLog data (d :: ds))
      with (Sleep d :: Post (URI ctLog) data :: retried ctLog data ds).
    cbn [app]. cbn [paced]. cbn [paced] in IH.
    rewrite String.eqb_refl. exact IH.
Qed.

(** The iteration of a log, in every environment. *)
Lemma submitToLog_shape (ct : CTConfig) (data : list byte)
  (ctLog : logDesc) (w : World) :
  SubmissionRetries ct < 2 ^ 63 ->
  exists err w' t,
    submitToLog ct data ctLog w = (Returns err, w', t)
    /\ ((t = [] /\ w' = w /\ SubmissionRetries ct < 0
         /\ err = Some UnableToSubmitCertificate)
        \/ (exists ds,
               t = Post (URI ctLog) data :: retried ctLog data ds
               /\ Z.of_nat (List.length ds) <= SubmissionRetries ct))
    /\ (err = None ->
        exists w0 resp body sct',
          roundTrip w0 (URI ctLog) data = (Responds resp body, w')
          /\ StatusCode resp = StatusOK
          /\ UnmarshalJSON rawOf zeroSCT body = (sct', None)
          /\ CheckSignature sct' = Returns None).
Proof.
  intros Hn.
  destruct (retryLoop_shape ct ctLog data (enough ct)
              (leave false 0 zeroSCT) w)
    as (st & w' & t & Hloop & Hshape & Hdone);
    [cbn; lia|assumption|unfold enough; cbn; lia|].
  rewrite (submitToLog_eq _ _ _ _ _ _ _ Hloop).
  destruct (CheckSignature_returns (sct st)) as [serr Hcheck].
  exists (match afterLoop st with Returns err => err | _ => None end), w', t.
  assert (Hafter : afterLoop st
                   = if negb (done st)
                     then Returns (Some UnableToSubmitCertificate)
                     else match serr with
                          | Some e => Returns (Some (BadSignature e))
                          | None => Returns None
                          end).
  { unfold afterLoop. rewrite Hcheck. reflexivity. }
  rewrite Hafter. split.
  { destruct (negb (done st)); [reflexivity|]. now destruct serr. }
  split.
  - destruct Hshape as [(-> & -> & -> & Hc)|Hds]; [left|right].
    + cbn in Hc. apply Z.leb_gt in Hc. cbn. auto.
    + cbn in Hds. destruct Hds as (ds & -> & Hlen).
      exists ds. split; [reflexivity|lia].
  - destruct (done st) eqn:Hd; cbn; [|discriminate].
    destruct serr as [e|]; [discriminate|]. intros _.
    destruct (Hdone eq_refl eq_refl) as (w0 & resp & body & Hx & Hok & Hdec).
    exists w0, resp, body, (sct st). auto.
Qed.

Lemma submitToLogs_cons (ct : CTConfig) (data : list byte)
  (ctLog : logDesc) (logs : list logDesc) (w w' : World)
  (t : list event) :
  submitToLog ct data ctLog w = (Returns None, w', t) ->
  submitToLogs ct data (ctLog :: logs) w
  = let '(r, w2, t2) := submitToLogs ct data logs w' in (r, w2, t ++ t2).
Proof.
  intros H. cbn [submitToLogs]. unfold bind at 1. now rewrite H.
Qed.

(** The whole list of logs, in every environment. *)
Lemma submitToLogs_shape (ct : CTConfig) (data : list byte)
  (logs : list logDesc) :
  SubmissionRetries ct < 2 ^ 63 ->
  forall w : World,
    exists err w' t,
      submitToLogs ct data logs w = (Returns err, w', t)
      /\ Z.of_nat (posts t)
         <= Z.of_nat (List.length logs)
            * Z.max 0 (SubmissionRetries ct + 1)
      /\ Z.of_nat (waits t)
         <= Z.of_nat (List.length logs) * Z.max 0 (SubmissionRetries ct)
      /\ paced t = true
      /\ (err = None ->
          forall ctLog, In ctLog logs -> In (Post (URI ctLog) data) t).
Proof.
  intros Hn. induction logs as [|ctLog logs IH]; intros w.
  - exists None, w, []. cbn. repeat split; try lia; try (intros _ l []).
  - destruct (submitToLog_shape ct data ctLog w Hn)
      as (err & w1 & t1 & Hlog & Hshape & _).
    assert (Hcount : Z.of_nat (posts t1) <= Z.max 0 (SubmissionRetries ct + 1)
                     /\ Z.of_nat (waits t1) <= Z.max 0 (SubmissionRetries ct)
                     /\ (forall t2, paced t2 = true -> paced (t1 ++ t2) = true)
                     /\ (err = None -> In (Post (URI ctLog) data) t1)).
    { destruct Hshape as [(-> & _ & _ & ->)|(ds & -> & Hlen)].
      - cbn. repeat split; try lia; auto. discriminate.
      - destruct (retried_counts ctLog data ds) as [Hp Hw].
        unfold posts, waits in *. cbn [filter isPost isSleep List.length].
        rewrite Hp, Hw. repeat split; try lia.
        + intros t2 Ht2. now apply paced_log.
        + intros _. now left. }
    destruct Hcount as (Hp1 & Hw1 & Hpaced1 & Hin1).
    cbn [List.length]. rewrite Nat2Z.inj_succ, !Z.mul_succ_l.
    destruct err as [e|].
    + rewrite (submitToLogs_cons_error _ _ _ _ _ _ _ _ Hlog).
      exists (Some e), w1, t1.
      assert (0 <= Z.of_nat (List.length logs)
                   * Z.max 0 (SubmissionRetries ct + 1)) by nia.
      assert (0 <= Z.of_nat (List.length logs)
                   * Z.max 0 (SubmissionRetries ct)) by nia.
      repeat split; try lia; try discriminate.
      rewrite <- (app_nil_r t1). now apply Hpaced1.
    + rewrite (submitToLogs_cons _ _ _ _ _ _ _ Hlog).
      destruct (IH w1) as (err2 & w2 & t2 & -> & Hp2 & Hw2 & Hpaced2 & Hin2).
      exists err2, w2, (t1 ++ t2). rewrite posts_app, waits_app.
      repeat split; try lia; auto.
      intros Herr l [<-|Hl]; apply in_or_app; auto.
Qed.


(** X2.  In every run, each wait comes directly after an attempt and
    directly before another attempt to the same log: a run never starts or
    ends with a wait, and never waits twice in a row. *)
Theorem SubmitToCT_waits_between_attempts (pub : PublisherAuthorityImpl)
  (cert : Certificate) (w : World) :
  (forall ct, CT pub = Some ct -> SubmissionRetries ct < 2 ^ 63) ->
  paced (snd (SubmitToCT pub cert w)) = true.
Proof.
  intros Hn. unfold SubmitToCT. destruct (CT pub) as [ct|]; [|reflexivity].
  destruct (marshal (submissionOf ct cert)) as [data|]; [|reflexivity].
  destruct (submitToLogs_shape ct data (Logs ct) (Hn ct eq_refl) w)
    as (err & w' & t & -> & _ & _ & Hpaced & _). exact Hpaced.
Qed.

(** X3.  When [SubmitToCT] returns no error, every configured log has been
    posted the submission. *)
Theorem SubmitToCT_success_posts_to_every_log
  (pub : PublisherAuthorityImpl) (ct : CTConfig) (cert : Certificate)
  (data : list byte) (w : World) :
  CT pub = Some ct ->
  SubmissionRetries ct < 2 ^ 63 ->
  marshal (submissionOf ct cert) = Some data ->
  fst (fst (SubmitToCT pub cert w)) = Returns None ->
  forall ctLog,
    In ctLog (Logs ct) ->
    In (Post (URI ctLog) data) (snd (SubmitToCT pub cert w)).
Proof.
  intros Hct Hn Hdata. rewrite (SubmitToCT_eq _ _ _ _ _ Hct Hdata).
  destruct (submitToLogs_shape ct data (Logs ct) Hn w)
    as (err & w' & t & -> & _ & _ & _ & Hin). cbn [fst snd].
  intros [= ->]. now apply Hin.
Qed.

(** X4.  With a negative retry count and at least one log, [SubmitToCT]
    fails at the first log without a single post: the loop test
    [retries <= SubmissionRetries] is false from the start. *)
Theorem SubmitToCT_negative_retries (pub : PublisherAuthorityImpl)
  (ct : CTConfig) (cert : Certificate) (data : list byte) (w : World) :
  CT pub = Some ct ->
  marshal (submissionOf ct cert) = Some data ->
  SubmissionRetries ct < 0 ->
  Logs ct <> [] ->
  SubmitToCT pub cert w = (Returns (Some UnableToSubmitCertificate), w, []).
Proof.
  intros Hct Hdata Hn Hlogs. rewrite (SubmitToCT_eq _ _ _ _ _ Hct Hdata).
  destruct (Logs ct) as [|ctLog logs]; [contradiction|].
  apply submitToLogs_cons_error.
  rewrite (submitToLog_eq ct data ctLog w w (leave false 0 zeroSCT) []);
    [reflexivity|].
  apply retryLoop_exit. cbn. apply Z.leb_gt. lia.
Qed.

(** X5.  A log's iteration ends without error only when the last exchange
    with the log was a response of status 200 whose body decodes; the SCT
    whose signature passed the check is that body decoded into a fresh
    SCT, so nothing written by an earlier, failed attempt is left in it. *)
Theorem accepted_log_answered_200 (ct : CTConfig) (data : list byte)
  (ctLog : logDesc) (w w' : World) (t : list event) :
  SubmissionRetries ct < 2 ^ 63 ->
  submitToLog ct data ctLog w = (Returns None, w', t) ->
  exists w0 resp body sct',
    roundTrip w0 (URI ctLog) data = (Responds resp body, w')
    /\ StatusCode resp = StatusOK
    /\ UnmarshalJSON rawOf zeroSCT body = (sct', None)
    /\ CheckSignature sct' = Returns None.
Proof.
  intros Hn Hlog.
  destruct (submitToLog_shape ct data ctLog w Hn)
    as (err & w1 & t1 & E & _ & Hok).
  rewrite Hlog in E. injection E as <- <- <-. now apply Hok.
Qed.

(** X6.  A first response whose body decodes and whose status is none of
    200, 408 and 503 ends the log's iteration at once: one post, no wait,
    no retry, and the error for a certificate that could not be
    submitted. *)
Theorem unexpected_status_is_not_retried (ct : CTConfig) (data : list byte)
  (ctLog : logDesc) (w w' : World) (resp : Response) (body : list byte)
  (sct' : signedCertificateTimestamp) :
  0 <= SubmissionRetries ct ->
  roundTrip w (URI ctLog) data = (Responds resp body, w') ->
  UnmarshalJSON rawOf zeroSCT body = (sct', None) ->
  StatusCode resp <> StatusOK ->
  StatusCode resp <> StatusRequestTimeout ->
  StatusCode resp <> StatusServiceUnavailable ->
  submitToLog ct data ctLog w
  = (Returns (Some UnableToSubmitCertificate), w', [Post (URI ctLog) data]).
Proof.
  intros Hn Hx Hdec Hok H408 H503.
  rewrite (submitToLog_first_answer ct data ctLog w w' resp body sct'
             Hn Hx Hdec).
  - apply Z.eqb_neq in Hok. rewrite Hok. reflexivity.
  - apply orb_false_iff. now rewrite !Z.eqb_neq.
Qed.

(** X7.  A first response of status 200 whose body decodes is final
    whatever its signature: there is one post and no retry, and the result
    is the result of the signature check on the decoded SCT, a malformed
    signature being returned as the error of the call. *)
Theorem first_200_answer_is_final (ct : CTConfig) (data : list byte)
  (ctLog : logDesc) (w w' : World) (resp : Response) (body : list byte)
  (sct' : signedCertificateTimestamp) (check : option signatureError) :
  0 <= SubmissionRetries ct ->
  roundTrip w (URI ctLog) data = (Responds resp body, w') ->
  UnmarshalJSON rawOf zeroSCT body = (sct', None) ->
  StatusCode resp = StatusOK ->
  CheckSignature sct' = Returns check ->
  submitToLog ct data ctLog w
  = (Returns (option_map BadSignature check), w', [Post (URI ctLog) data]).
Proof.
  intros Hn Hx Hdec Hok Hcheck.
  rewrite (submitToLog_first_answer ct data ctLog w w' resp body sct'
             Hn Hx Hdec).
  - rewrite Hok. cbn. unfold afterLoop. cbn. rewrite Hcheck.
    now destruct check.
  - rewrite Hok. reflexivity.
Qed.


(** *** The waits of a run *)

(** A wait of the configured backoff, or a [time.Sleep] that does not
    pause. *)
Definition configuredOrNoPause (ct : CTConfig) (ev : event) : Prop :=
  match ev with
  | Post _ _ => True
  | Sleep d => d = SubmissionBackoff ct \/ Time.paused d = 0
  end.

Lemma retryBackoff_configuredOrNoPause (ct : CTConfig) (resp : Response) :
  retryBackoff ct resp = SubmissionBackoff ct
  \/ Time.paused (retryBackoff ct resp) = 0.
Proof.
  unfold retryBackoff.
  destruct (negb (String.eqb (Get (Header resp) "Retry-After") EmptyString));
    [|now left].
  destruct (Strconv.Atoi (Get (Header resp) "Retry-After")) as [v [e|]] eqn:E;
    [|now left].
  right.
  destruct (Strconv.Atoi_err _ _ _ E) as [[_ ->]|[_ [->| ->]]];
    vm_compute; reflexivity.
Qed.

Lemma attempt_waits (ct : CTConfig) (ctLog : logDesc) (data : list byte)
  (st : loopState) (w : World) :
  Forall (configuredOrNoPause ct) (snd (attempt ct ctLog data st w)).
Proof.
  pose proof (retryBackoff_configuredOrNoPause ct) as Hb.
  destruct (roundTrip w (URI ctLog) data) as [x w'] eqn:Hx.
  destruct (postResult x (sct st)) as [[resp|e] sct'] eqn:Hr.
  - destruct ((StatusCode resp =? StatusRequestTimeout)
              || (StatusCode resp =? StatusServiceUnavailable)) eqn:Hs.
    + rewrite (attempt_retryable_status _ _ _ _ _ _ _ _ Hx _ Hr Hs).
      destruct (retries st >=? SubmissionRetries ct); cbn;
        repeat apply Forall_cons; try apply Forall_nil; cbn; auto.
    + destruct (StatusCode resp =? StatusOK) eqn:Hok.
      * rewrite (attempt_ok _ _ _ _ _ _ _ _ Hx _ Hr Hok).
        cbn. repeat apply Forall_cons; try apply Forall_nil; cbn; auto.
      * rewrite (attempt_unexpected_status _ _ _ _ _ _ _ _ Hx _ Hr Hs Hok).
        cbn. repeat apply Forall_cons; try apply Forall_nil; cbn; auto.
  - rewrite (attempt_post_error _ _ _ _ _ _ _ _ Hx _ Hr).
    destruct (retries st >=? SubmissionRetries ct); cbn;
      repeat apply Forall_cons; try apply Forall_nil; cbn; auto.
Qed.

Lemma retryLoop_waits (ct : CTConfig) (ctLog : logDesc) (data : list byte)
  (fuel : nat) :
  forall (st : loopState) (w : World),
    Forall (configuredOrNoPause ct)
      (snd (retryLoop fuel ct ctLog data st w)).
Proof.
  induction fuel as [|fuel IH]; intros st w; cbn [retryLoop];
    destruct (negb (done st) && (retries st <=? SubmissionRetries ct));
    try (cbn; constructor).
  unfold bind. pose proof (attempt_waits ct ctLog data st w) as Ha.
  destruct (attempt ct ctLog data st w) as [[[[c st']| |] w'] t];
    cbn [snd] in *; try assumption.
  destruct c.
  - specialize (IH st' w').
    destruct (retryLoop fuel ct ctLog data st' w') as [[r w2] t2].
    cbn [snd] in *. apply Forall_app. auto.
  - cbn. now rewrite app_nil_r.
Qed.

Lemma submitToLog_waits (ct : CTConfig) (data : list byte)
  (ctLog : logDesc) (w : World) :
  Forall (configuredOrNoPause ct) (snd (submitToLog ct data ctLog w)).
Proof.
  unfold submitToLog, bind at 1. fold (leave false 0 zeroSCT).
  pose proof (retryLoop_waits ct ctLog data (enough ct)
                (leave false 0 zeroSCT) w) as Hl.
  destruct (retryLoop (enough ct) ct ctLog data (leave false 0 zeroSCT) w)
    as [[[st| |] w'] t]; cbn [snd] in *; try assumption.
  destruct (negb (done st)); cbn; [now rewrite app_nil_r|].
  unfold bind, lift.
  destruct (CheckSignature (sct st)) as [[e|]| |];
    cbn; now rewrite ?app_nil_r.
Qed.

Lemma submitToLogs_waits (ct : CTConfig) (data : list byte)
  (logs : list logDesc) :
  forall w : World,
    Forall (configuredOrNoPause ct) (snd (submitToLogs ct data logs w)).
Proof.
  induction logs as [|ctLog logs IH]; intros w; cbn [submitToLogs].
  - constructor.
  - unfold bind at 1.
    pose proof (submitToLog_waits ct data ctLog w) as Hl.
    destruct (submitToLog ct data ctLog w) as [[[[e|]| |] w'] t];
      cbn [snd] in *; try assumption.
    + cbn. now rewrite app_nil_r.
    + specialize (IH w').
      destruct (submitToLogs ct data logs w') as [[r w2] t2].
      cbn [snd] in *. apply Forall_app. auto.
Qed.

(** X8.  The Retry-After header never sets a pause.  In every run, whatever
    the logs answer, each call of [time.Sleep] is given the configured
    backoff or a duration that is not positive, on which it returns at
    once: a header that parses as a number is ignored, and one that does
    not parse replaces the backoff by zero or by minus one second. *)
Theorem SubmitToCT_never_waits_as_told (pub : PublisherAuthorityImpl)
  (ct : CTConfig) (cert : Certificate) (w : World) :
  CT pub = Some ct ->
  Forall (configuredOrNoPause ct) (snd (SubmitToCT pub cert w)).
Proof.
  intros Hct. unfold SubmitToCT. rewrite Hct.
  destruct (marshal (submissionOf ct cert)) as [data|]; [|constructor].
  apply submitToLogs_waits.
Qed.

End Submission.

(** An absent header reads as the empty string. *)
Lemma Get_absent (h : gmap string (list string)) (key : string) :
  h !! key = None -> Get h key = EmptyString.
Proof. intros H. unfold Get. now rewrite H. Qed.

(** *** The submission payload *)

(** C7.  For every certificate and every issuer byte sequence, the chain
    of the submission request has exactly two base64 fields, the
    end-entity certificate first and the issuer certificate second, and
    decoding each field gives back exactly the bytes it was built from,
    without error. *)
Theorem submission_payload_round_trip (ct : CTConfig) (cert : Certificate) :
  exists certField issuerField : string,
    Chain (submissionOf ct cert) = [certField; issuerField]
    /\ certField = Base64.EncodeToString (Raw cert)
    /\ issuerField = Base64.EncodeToString (IssuerDER ct)
    /\ Base64.DecodeString certField = (Raw cert, None)
    /\ Base64.DecodeString issuerField = (IssuerDER ct, None).
Proof.
  exists (Base64.EncodeToString (Raw cert)),
         (Base64.EncodeToString (IssuerDER ct)).
  repeat split; apply Base64.DecodeString_EncodeToString.
Qed.

(** *** Decoding a response *)

(** C9.  Decoding is not atomic on error.  When the wire object has a
    well-formed base64 log id, a malformed signature makes [UnmarshalJSON]
    return an error with the target's [LogID] and [Signature] already
    overwritten (the signature by the bytes decoded before the corrupt
    input), and a malformed extensions field, after a well-formed
    signature, with [LogID], [Signature] and [Extensions] overwritten;
    the version and the timestamp keep their old values. *)
Theorem UnmarshalJSON_not_atomic
  (rawOf : list byte -> option rawSignedCertificateTimestamp)
  (sct : signedCertificateTimestamp) (data : list byte)
  (rawSCT : rawSignedCertificateTimestamp) (logID : list byte) :
  rawOf data = Some rawSCT ->
  Base64.DecodeString (rawLogID rawSCT) = (logID, None) ->
  (forall sig e,
      Base64.DecodeString (rawSignature rawSCT) = (sig, Some e) ->
      UnmarshalJSON rawOf sct data
      = ({| SCTVersion := SCTVersion sct; LogID := logID;
            Timestamp := Timestamp sct; Extensions := Extensions sct;
            Signature := sig |}, Some FailedToDecodeSignature))
  /\ (forall sig ext e,
      Base64.DecodeString (rawSignature rawSCT) = (sig, None) ->
      Base64.DecodeString (rawExtensions rawSCT) = (ext, Some e) ->
      UnmarshalJSON rawOf sct data
      = ({| SCTVersion := SCTVersion sct; LogID := logID;
            Timestamp := Timestamp sct; Extensions := ext;
            Signature := sig |}, Some FailedToDecodeExtensions)).
Proof.
  intros Hraw Hid. split.
  - intros sig e Hsig. unfold UnmarshalJSON.
    rewrite Hraw, Hid. cbn. now rewrite Hsig.
  - intros sig ext e Hsig Hext. unfold UnmarshalJSON.
    rewrite Hraw, Hid. cbn. rewrite Hsig. cbn. now rewrite Hext.
Qed.

Lemma UnmarshalJSON_not_atomic_witness :
  UnmarshalJSON (fun _ => Some rawBadSignature) zeroSCT []
  = ({| SCTVersion := 0; LogID := [x01; x02; x03]; Timestamp := 0;
        Extensions := []; Signature := [x04; x03; x00] |},
     Some FailedToDecodeSignature)
  /\ fst (UnmarshalJSON (fun _ => Some rawBadSignature) zeroSCT []) <> zeroSCT.
Proof.
  assert (Hid : Base64.DecodeString (rawLogID rawBadSignature)
                = ([x01; x02; x03], None)) by (vm_compute; reflexivity).
  assert (Hsig : Base64.DecodeString (rawSignature rawBadSignature)
                 = ([x04; x03; x00], Some Base64.CorruptInput))
    by (vm_compute; reflexivity).
  pose proof (UnmarshalJSON_not_atomic (fun _ => Some rawBadSignature)
                zeroSCT [] rawBadSignature [x01; x02; x03] eq_refl Hid)
    as [Hbad _].
  specialize (Hbad _ _ Hsig). rewrite Hbad. split; [reflexivity|].
  cbn. discriminate.
Defined.

(** *** The signature check *)

(** C5.  A signature made of the SHA-256 and ECDSA tags, two length bytes
    (whatever their values) and a DER encoding of a pair (R, S) that
    [asn1.Unmarshal] reads to its last byte passes [CheckSignature]; the
    same signature with one more byte at its end fails with the
    trailing-garbage error.  By [Asn1.Unmarshal_derEcdsaSig] every
    SEQUENCE of two minimally encoded INTEGERs, of less than 2^31 bytes, is
    such an encoding. *)
Theorem CheckSignature_valid_then_trailing_garbage
  (sct : signedCertificateTimestamp) (l0 l1 extra : byte)
  (der : list byte) (rs : Asn1.ecdsaSig) :
  Asn1.Unmarshal der = Asn1.Ok (rs, []) ->
  Signature sct = x04 :: x03 :: l0 :: l1 :: der ->
  CheckSignature sct = Returns None
  /\ CheckSignature (withSignature sct (Signature sct ++ [extra]))
     = Returns (Some TrailingGarbage).
Proof.
  intros Hder Hsig. split.
  - rewrite (CheckSignature_prefixed sct _ _ _ _ _ Hsig), Hder.
    reflexivity.
  - rewrite (CheckSignature_prefixed _ x04 x03 l0 l1 (der ++ [extra])).
    + rewrite (Asn1.Unmarshal_app [extra] _ _ _ Hder). reflexivity.
    + cbn. rewrite Hsig. reflexivity.
Qed.

Lemma CheckSignature_valid_then_trailing_garbage_witness :
  CheckSignature sctGood = Returns None
  /\ CheckSignature (withSignature sctGood (Signature sctGood ++ [x00]))
     = Returns (Some TrailingGarbage).
Proof.
  apply (CheckSignature_valid_then_trailing_garbage sctGood x00 x08 x00
           Asn1.der_1_2 {| Asn1.R := 1; Asn1.S := 2 |});
    reflexivity.
Defined.

(** C6.  When the signature has at least four bytes and its first byte is
    not the SHA-256 tag or its second byte is not the ECDSA tag,
    [CheckSignature] fails with an unsupported-algorithm error: the hash
    error, with the first byte, when the first byte is wrong, and the
    signature-algorithm error, with the second byte, otherwise.  The result
    is the same for every choice of the bytes after the first two. *)
Theorem CheckSignature_unsupported_algorithm
  (sct sct' : signedCertificateTimestamp) (b0 b1 : byte)
  (rest rest' : list byte) :
  Signature sct = b0 :: b1 :: rest ->
  Signature sct' = b0 :: b1 :: rest' ->
  (2 <= List.length rest)%nat ->
  (2 <= List.length rest')%nat ->
  Bytes.to_Z b0 <> sctHashSHA256 \/ Bytes.to_Z b1 <> sctSigECDSA ->
  CheckSignature sct
  = Returns (Some (if Bytes.to_Z b0 =? sctHashSHA256
                   then UnsupportedSignatureAlgorithm b1
                   else UnsupportedHashFunction b0))
  /\ CheckSignature sct' = CheckSignature sct.
Proof.
  intros Hsig Hsig' Hlen Hlen' Htags.
  destruct rest as [|l0 [|l1 der]]; cbn in Hlen; try lia.
  destruct rest' as [|l0' [|l1' der']]; cbn in Hlen'; try lia.
  rewrite (CheckSignature_prefixed _ _ _ _ _ _ Hsig),
          (CheckSignature_prefixed _ _ _ _ _ _ Hsig').
  destruct (Z.eqb_spec (Bytes.to_Z b0) sctHashSHA256) as [E0|E0]; cbn.
  - destruct (Z.eqb_spec (Bytes.to_Z b1) sctSigECDSA) as [E1|E1]; cbn.
    + tauto.
    + split; reflexivity.
  - split; reflexivity.
Qed.

Lemma CheckSignature_unsupported_algorithm_witness :
  CheckSignature (withSignature zeroSCT [x04; x01; x00; x00])
  = Returns (Some (UnsupportedSignatureAlgorithm x01))
  /\ CheckSignature (withSignature zeroSCT (x04 :: x01 :: x00 :: x08 :: Asn1.der_1_2))
     = CheckSignature (withSignature zeroSCT [x04; x01; x00; x00]).
Proof.
  apply (CheckSignature_unsupported_algorithm
           (withSignature zeroSCT [x04; x01; x00; x00])
           (withSignature zeroSCT (x04 :: x01 :: x00 :: x08 :: Asn1.der_1_2))
           x04 x01 [x00; x00] (x00 :: x08 :: Asn1.der_1_2));
    try reflexivity; cbn; try lia.
  right. discriminate.
Defined.

(** C10.  [CheckSignature] is total: whatever the bytes of the signature,
    it returns, without a run-time panic, either success or one of the five
    errors.  A signature shorter than four bytes is answered by the length
    check, before any byte is indexed or the suffix [[4:]] is taken; at four
    bytes or more both indexed bytes and the suffix exist. *)
Theorem CheckSignature_total (sct : signedCertificateTimestamp) :
  (CheckSignature sct = Returns None
   \/ CheckSignature sct = Returns (Some SignatureTruncated)
   \/ (exists b, CheckSignature sct = Returns (Some (UnsupportedHashFunction b)))
   \/ (exists b, CheckSignature sct
                 = Returns (Some (UnsupportedSignatureAlgorithm b)))
   \/ (exists e, CheckSignature sct = Returns (Some (FailedToParseSignature e)))
   \/ CheckSignature sct = Returns (Some TrailingGarbage))
  /\ ((List.length (Signature sct) < 4)%nat ->
      CheckSignature sct = Returns (Some SignatureTruncated))
  /\ ((4 <= List.length (Signature sct))%nat ->
      (exists b0, index (Signature sct) 0 = Returns b0)
      /\ (exists b1, index (Signature sct) 1 = Returns b1)
      /\ sliceFrom (Signature sct) 4 = Returns (skipn 4 (Signature sct))).
Proof.
  split; [|split].
  - destruct (Signature sct) as [|b0 [|b1 [|l0 [|l1 der]]]] eqn:Hsig;
      try (right; left; unfold CheckSignature; rewrite Hsig; reflexivity).
    rewrite (CheckSignature_prefixed _ _ _ _ _ _ Hsig).
    destruct (negb (Bytes.to_Z b0 =? sctHashSHA256)); [eauto 6|].
    destruct (negb (Bytes.to_Z b1 =? sctSigECDSA)); [eauto 6|].
    destruct (Asn1.Unmarshal der) as [[rs rest]|e]; [|eauto 7].
    destruct (0 <? List.length rest)%nat; auto 7.
  - intros Hlen. unfold CheckSignature.
    apply Nat.ltb_lt in Hlen. now rewrite Hlen.
  - intros Hlen.
    destruct (Signature sct) as [|b0 [|b1 [|l0 [|l1 der]]]];
      cbn in Hlen; try lia.
    repeat split; eauto.
Qed.

(** *** Runs on the test data *)

Example benchData_is_marshalled (logs : list logDesc) (retries : Z) :
  benchMarshal (submissionOf (benchCT logs retries) benchCert)
  = Some benchData.
Proof. reflexivity. Qed.

Example rawGood_decodes :
  UnmarshalJSON benchRawOf zeroSCT bodyGood = (sctGood, None).
Proof. vm_compute. reflexivity. Qed.

(** **** C1 on the bench

    A 503 response with [Retry-After: 5]: [Atoi] reads 5 without error, and
    the code then keeps the configured backoff of ten seconds.  The wait
    before the second attempt is ten seconds, not five. *)
Lemma retry_after_5_waits_configured_backoff :
  Strconv.Atoi "5" = (5, None)
  /\ retryBackoff (benchCT [logA] 1) (respondRetryAfter 503 "5")
     = 10 * Time.Second
  /\ SubmitToCT (list exchange) scripted benchMarshal benchRawOf
       (benchPub [logA] 1) benchCert
       [Responds (respondRetryAfter 503 "5") bodyGood;
        Responds (respond 200) bodyGood]
     = (Returns None, [],
        [Post (URI logA) benchData; Sleep (10 * Time.Second);
         Post (URI logA) benchData]).
Proof. repeat split; vm_compute; reflexivity. Qed.

(** **** C2 on the bench: two retries, log B down *)
Lemma SubmitToCT_retries_exhausted_witness :
  exists w2 t2,
    SubmitToCT nat (stationary answerBDown) benchMarshal benchRawOf
      (benchPub [logA; logB; logC] 2) benchCert 0%nat
    = (Returns (Some UnableToSubmitCertificate), w2,
       [Post (URI logA) benchData] ++ t2)
    /\ t2 = Post (URI logB) benchData
            :: List.concat
                 (repeat [Sleep (10 * Time.Second); Post (URI logB) benchData]
                         (Z.to_nat 2))
    /\ Z.of_nat (attemptsTo (URI logB) t2) = 2 + 1
    /\ Z.of_nat (waits t2) = 2
    /\ last t2 (Sleep 0) = Post (URI logB) benchData.
Proof.
  apply (SubmitToCT_retries_exhausted nat (stationary answerBDown)
           benchMarshal benchRawOf (benchPub [logA; logB; logC] 2)
           (benchCT [logA; logB; logC] 2) benchCert benchData
           [logA] [logC] logB 0%nat 1%nat [Post (URI logA) benchData]).
  - reflexivity.
  - reflexivity.
  - cbn. lia.
  - reflexivity.
  - vm_compute. reflexivity.
  - intros w. reflexivity.
Defined.

(** **** C3 on the bench: log A accepts, log B answers 451 *)
Lemma SubmitToCT_aborts_at_failing_log_witness :
  SubmitToCT nat (stationary answerB451) benchMarshal benchRawOf
    (benchPub [logA; logB; logC] 2) benchCert 0%nat
  = (Returns (Some UnableToSubmitCertificate), 2%nat,
     [Post (URI logA) benchData] ++ [Post (URI logB) benchData])
  /\ Forall (eventFor benchData ([logA] ++ [logB]))
       ([Post (URI logA) benchData] ++ [Post (URI logB) benchData])
  /\ Forall (eventFor benchData [logB]) [Post (URI logB) benchData]
  /\ (UnableToSubmitCertificate = UnableToSubmitCertificate
      \/ exists se, UnableToSubmitCertificate = BadSignature se).
Proof.
  apply (SubmitToCT_aborts_at_failing_log nat (stationary answerB451)
           benchMarshal benchRawOf (benchPub [logA; logB; logC] 2)
           (benchCT [logA; logB; logC] 2) benchCert benchData
           [logA] [logC] logB 0%nat 1%nat 2%nat).
  - reflexivity.
  - reflexivity.
  - reflexivity.
  - vm_compute. reflexivity.
  - vm_compute. reflexivity.
Defined.

(** **** C4 on the bench

    One retry is allowed.  The first answer of the log has a body that is
    not JSON (then, in the second run, a body whose signature is not
    base64); the second answer is well-formed.  The code waits the
    configured backoff, posts again, and returns no error. *)
Lemma decode_error_is_retried_counterexample :
  SubmitToCT (list exchange) scripted benchMarshal benchRawOf
    (benchPub [logA] 1) benchCert
    [Responds (respond 200) bodyGarbled; Responds (respond 200) bodyGood]
  = (Returns None, [],
     [Post (URI logA) benchData; Sleep (10 * Time.Second);
      Post (URI logA) benchData])
  /\ SubmitToCT (list exchange) scripted benchMarshal benchRawOf
       (benchPub [logA] 1) benchCert
       [Responds (respond 200) bodyBadSignature;
        Responds (respond 200) bodyGood]
     = (Returns None, [],
        [Post (URI logA) benchData; Sleep (10 * Time.Second);
         Post (URI logA) benchData])
  /\ snd (UnmarshalJSON benchRawOf zeroSCT bodyGarbled)
     = Some FailedToUnmarshalReceipt
  /\ snd (UnmarshalJSON benchRawOf zeroSCT bodyBadSignature)
     = Some FailedToDecodeSignature.
Proof. repeat split; vm_compute; reflexivity. Qed.

Lemma decode_error_is_retried_witness :
  (0 < 1 ->
   exists r w2 t,
     retryLoop (list exchange) scripted benchRawOf 2 (benchCT [logA] 1)
       logA benchData (leave false 0 zeroSCT)
       [Responds (respond 200) bodyGarbled; Responds (respond 200) bodyGood]
     = (r, w2,
        Post (URI logA) benchData :: Sleep (10 * Time.Second)
          :: Post (URI logA) benchData :: t))
  /\ (0 = 1 ->
      retryLoop (list exchange) scripted benchRawOf 1 (benchCT [logA] 1)
        logA benchData (leave false 0 zeroSCT)
        [Responds (respond 200) bodyGarbled; Responds (respond 200) bodyGood]
      = (Returns (leave false 0 zeroSCT),
         [Responds (respond 200) bodyGood], [Post (URI logA) benchData])
      /\ afterLoop (leave false 0 zeroSCT)
         = Returns (Some UnableToSubmitCertificate)).
Proof.
  apply (decode_error_is_retried (list exchange) scripted benchRawOf
           (benchCT [logA] 1) logA benchData (leave false 0 zeroSCT)
           [Responds (respond 200) bodyGarbled;
            Responds (respond 200) bodyGood]
           [Responds (respond 200) bodyGood]
           (respond 200) bodyGarbled zeroSCT FailedToUnmarshalReceipt 0%nat).
  - reflexivity.
  - reflexivity.
  - reflexivity.
  - cbn. lia.
  - cbn. lia.
Defined.

(** **** C8 on the bench

    Two 503 responses whose Retry-After header does not parse, each
    followed by a well-formed answer.  In the first run the header is not a
    number and the body of the 503 response does not decode: [postJSON]
    returns the decode error before the status is looked at, and the wait
    is the configured backoff of ten seconds, not zero.  In the second run
    the body decodes and the header is 2^63, out of the range of [int]:
    [Atoi] fails and returns the largest [int], not zero, and the duration
    handed to the sleep is minus one second, not zero seconds. *)
Lemma retry_after_unparsable_counterexample :
  Strconv.Atoi "soon" = (0, Some Strconv.ErrSyntax)
  /\ SubmitToCT (list exchange) scripted benchMarshal benchRawOf
       (benchPub [logA] 1) benchCert
       [Responds (respondRetryAfter 503 "soon") bodyGarbled;
        Responds (respond 200) bodyGood]
     = (Returns None, [],
        [Post (URI logA) benchData; Sleep (10 * Time.Second);
         Post (URI logA) benchData])
  /\ Get (Header (respondRetryAfter 503 "9223372036854775808")) "Retry-After"
     = "9223372036854775808"
  /\ Strconv.Atoi "9223372036854775808"
     = (9223372036854775807, Some Strconv.ErrRange)
  /\ retryBackoff (benchCT [logA] 1)
       (respondRetryAfter 503 "9223372036854775808")
     = -1000000000
  /\ SubmitToCT (list exchange) scripted benchMarshal benchRawOf
       (benchPub [logA] 1) benchCert
       [Responds (respondRetryAfter 503 "9223372036854775808") bodyGood;
        Responds (respond 200) bodyGood]
     = (Returns None, [],
        [Post (URI logA) benchData; Sleep (-1000000000);
         Post (URI logA) benchData]).
Proof. repeat split; vm_compute; reflexivity. Qed.

Lemma retry_after_unparsable_or_absent_witness :
  (Get (Header (respondRetryAfter 503 "soon")) "Retry-After" = EmptyString ->
   attempt (list exchange) scripted benchRawOf (benchCT [logA] 1) logA
     benchData (leave false 0 zeroSCT)
     [Responds (respondRetryAfter 503 "soon") bodyGood]
   = (Returns (Continue, leave false (incr 0) sctGood), [],
      [Post (URI logA) benchData; Sleep (10 * Time.Second)]))
  /\ (forall (v : Z) (e : Strconv.NumError),
      Get (Header (respondRetryAfter 503 "soon")) "Retry-After"
      <> EmptyString ->
      Strconv.Atoi (Get (Header (respondRetryAfter 503 "soon")) "Retry-After")
      = (v, Some e) ->
      attempt (list exchange) scripted benchRawOf (benchCT [logA] 1) logA
        benchData (leave false 0 zeroSCT)
        [Responds (respondRetryAfter 503 "soon") bodyGood]
      = (Returns (Continue, leave false (incr 0) sctGood), [],
         [Post (URI logA) benchData; Sleep (Time.mul Time.Second v)])
      /\ (e = Strconv.ErrSyntax -> v = 0 /\ Time.mul Time.Second v = 0)
      /\ (e = Strconv.ErrRange ->
          (v = 2 ^ 63 - 1 /\ Time.mul Time.Second v = - Time.Second)
          \/ (v = - 2 ^ 63 /\ Time.mul Time.Second v = 0))
      /\ Time.paused (Time.mul Time.Second v) = 0).
Proof.
  apply (retry_after_unparsable_or_absent (list exchange) scripted
           benchRawOf (benchCT [logA] 1) logA benchData
           (leave false 0 zeroSCT)
           [Responds (respondRetryAfter 503 "soon") bodyGood] []
           (respondRetryAfter 503 "soon") bodyGood sctGood).
  - reflexivity.
  - vm_compute. reflexivity.
  - right. reflexivity.
  - cbn. lia.
Defined.

Example retry_after_soon_waits_zero :
  Strconv.Atoi "soon" = (0, Some Strconv.ErrSyntax)
  /\ SubmitToCT (list exchange) scripted benchMarshal benchRawOf
       (benchPub [logA] 1) benchCert
       [Responds (respondRetryAfter 503 "soon") bodyGood;
        Responds (respond 200) bodyGood]
     = (Returns None, [],
        [Post (URI logA) benchData; Sleep 0; Post (URI logA) benchData]).
Proof. repeat split; vm_compute; reflexivity. Qed.


(** *** More on the signature check *)

(** X10.  [CheckSignature] accepts exactly the signatures made of the
    SHA-256 tag, the ECDSA tag, two further bytes and an encoding that
    [asn1.Unmarshal] reads as a pair (R, S) up to its last byte. *)
Theorem CheckSignature_accepts_iff (sct : signedCertificateTimestamp) :
  CheckSignature sct = Returns None
  <-> exists (l0 l1 : byte) (der : list byte) (rs : Asn1.ecdsaSig),
        Signature sct = x04 :: x03 :: l0 :: l1 :: der
        /\ Asn1.Unmarshal der = Asn1.Ok (rs, []).
Proof.
  split.
  - destruct (Signature sct) as [|b0 [|b1 [|l0 [|l1 der]]]] eqn:Hsig;
      try (unfold CheckSignature; rewrite Hsig; discriminate).
    rewrite (CheckSignature_prefixed _ _ _ _ _ _ Hsig).
    destruct (Z.eqb_spec (Bytes.to_Z b0) sctHashSHA256) as [E0|E0];
      [|discriminate].
    destruct (Z.eqb_spec (Bytes.to_Z b1) sctSigECDSA) as [E1|E1];
      [|discriminate].
    cbn [negb].
    destruct (Asn1.Unmarshal der) as [[rs rest]|e] eqn:Hder; [|discriminate].
    destruct rest as [|b rest]; [|discriminate].
    intros _. exists l0, l1, der, rs.
    rewrite (Bytes.to_Z_inj b0 x04 E0), (Bytes.to_Z_inj b1 x03 E1).
    split; [reflexivity|assumption].
  - intros (l0 & l1 & der & rs & Hsig & Hder).
    rewrite (CheckSignature_prefixed _ _ _ _ _ _ Hsig), Hder. reflexivity.
Qed.

(** X11.  The two length bytes of the signature are not read: two
    signatures that differ in these bytes only get the same result. *)
Theorem CheckSignature_ignores_declared_length
  (sct sct' : signedCertificateTimestamp) (b0 b1 l0 l1 l0' l1' : byte)
  (der : list byte) :
  Signature sct = b0 :: b1 :: l0 :: l1 :: der ->
  Signature sct' = b0 :: b1 :: l0' :: l1' :: der ->
  CheckSignature sct' = CheckSignature sct.
Proof.
  intros Hsig Hsig'.
  rewrite (CheckSignature_prefixed _ _ _ _ _ _ Hsig),
          (CheckSignature_prefixed _ _ _ _ _ _ Hsig').
  reflexivity.
Qed.

(** X12.  The trailing-garbage check covers the bytes after the SEQUENCE
    only.  A signature whose SEQUENCE holds further bytes after its two
    INTEGERs passes [CheckSignature]: [asn1.Unmarshal] allows extra bytes
    at the end of a SEQUENCE it reads into a struct. *)
Theorem CheckSignature_accepts_extra_in_sequence
  (sct : signedCertificateTimestamp) (l0 l1 : byte)
  (r s extra : list byte) :
  Asn1.minimalInteger r -> Asn1.minimalInteger s ->
  Z.of_nat (List.length (Asn1.derInteger r ++ Asn1.derInteger s ++ extra))
  < 2 ^ 31 ->
  Signature sct
  = x04 :: x03 :: l0 :: l1
      :: Asn1.derSequence (Asn1.derInteger r ++ Asn1.derInteger s ++ extra) ->
  CheckSignature sct = Returns None.
Proof.
  intros Hr Hs Hlen Hsig.
  destruct (Asn1.Unmarshal_sequence_with_extra r s extra Hr Hs Hlen)
    as [rs Hder].
  rewrite (CheckSignature_prefixed _ _ _ _ _ _ Hsig), Hder. reflexivity.
Qed.

(** *** More on decoding a response *)

(** X13.  Round trip of the wire format.  When the three base64 fields of
    the wire object are the standard encodings of byte sequences,
    [UnmarshalJSON] succeeds and leaves exactly these bytes, the version
    and the timestamp of the wire object in the SCT, whatever the SCT held
    before. *)
Theorem UnmarshalJSON_round_trip
  (rawOf : list byte -> option rawSignedCertificateTimestamp)
  (sct : signedCertificateTimestamp) (data : list byte)
  (version timestamp : Z) (logID sig ext : list byte) :
  rawOf data
  = Some {| rawVersion := version;
            rawLogID := Base64.EncodeToString logID;
            rawTimestamp := timestamp;
            rawSignature := Base64.EncodeToString sig;
            rawExtensions := Base64.EncodeToString ext |} ->
  UnmarshalJSON rawOf sct data
  = ({| SCTVersion := version; LogID := logID; Timestamp := timestamp;
        Extensions := ext; Signature := sig |}, None).
Proof.
  intros Hraw. unfold UnmarshalJSON. rewrite Hraw.
  cbn [rawVersion rawLogID rawTimestamp rawSignature rawExtensions].
  rewrite !Base64.DecodeString_EncodeToString. reflexivity.
Qed.

(** X14.  What a failed decoding leaves alone.  On every error the version
    and the timestamp of the target keep their old values, since they are
    assigned last.  A body that is not a wire object leaves the whole
    target as it was; a malformed log id leaves the signature and the
    extensions, and a malformed signature leaves the extensions. *)
Theorem UnmarshalJSON_error_frame
  (rawOf : list byte -> option rawSignedCertificateTimestamp)
  (sct sct' : signedCertificateTimestamp) (data : list byte)
  (e : decodeError) :
  UnmarshalJSON rawOf sct data = (sct', Some e) ->
  SCTVersion sct' = SCTVersion sct
  /\ Timestamp sct' = Timestamp sct
  /\ (e = FailedToUnmarshalReceipt -> sct' = sct)
  /\ (e = FailedToDecodeLogID ->
      Signature sct' = Signature sct /\ Extensions sct' = Extensions sct)
  /\ (e = FailedToDecodeSignature -> Extensions sct' = Extensions sct).
Proof.
  unfold UnmarshalJSON. destruct (rawOf data) as [rawSCT|].
  - destruct (Base64.DecodeString (rawLogID rawSCT)) as [logID [?|]].
    { intros [= <- <-]. cbn. repeat split; try discriminate; auto. }
    destruct (Base64.DecodeString (rawSignature rawSCT)) as [sig [?|]].
    { intros [= <- <-]. cbn. repeat split; try discriminate; auto. }
    destruct (Base64.DecodeString (rawExtensions rawSCT)) as [ext [?|]].
    { intros [= <- <-]. cbn. repeat split; try discriminate; auto. }
    discriminate.
  - intros [= <- <-]. repeat split; try discriminate; auto.
Qed.


(** *** [NewPublisherAuthorityImpl]

    [time.ParseDuration] is the environment's: [ParseDuration s] is the
    duration read from [s], or [None] when the call returns an error.  The
    configuration is passed by pointer and the publisher keeps that
    pointer, so the assignments to [pub.CT] write into the caller's
    configuration.  The result is the configuration as the call leaves it
    and the publisher ([None] for the pair of [nil] and the error), whose
    [CT] is that configuration.  The audit logger is left out. *)
Section Constructor.
Variable ParseDuration : string -> option Z.

Definition NewPublisherAuthorityImpl (ctConfig : option CTConfig)
  (issuerDER : list byte)
  : option CTConfig * option PublisherAuthorityImpl :=
  match ctConfig with
  | None => (None, Some {| CT := None |})
  | Some c =>
      let c := {| Logs := Logs c;
                  SubmissionRetries := SubmissionRetries c;
                  SubmissionBackoffString := SubmissionBackoffString c;
                  SubmissionBackoff := SubmissionBackoff c;
                  IssuerDER := issuerDER |} in
      match ParseDuration (SubmissionBackoffString c) with
      | None => (Some c, None)
      | Some ctBackoff =>
          let c := {| Logs := Logs c;
                      SubmissionRetries := SubmissionRetries c;
                      SubmissionBackoffString := SubmissionBackoffString c;
                      SubmissionBackoff := ctBackoff;
                      IssuerDER := IssuerDER c |} in
          (Some c, Some {| CT := Some c |})
      end
  end.

(** X15.  A publisher built from a configuration submits the issuer bytes
    given to the constructor and waits the duration parsed from the backoff
    string: the [IssuerDER] and the [SubmissionBackoff] the configuration
    held before are overwritten, in the caller's configuration too, and
    the logs and the retry count are kept.  The second field of the chain
    it submits decodes to the issuer bytes given. *)
Theorem NewPublisherAuthorityImpl_submits_given_issuer
  (c : CTConfig) (issuerDER : list byte) (c' : option CTConfig)
  (pub : PublisherAuthorityImpl) (cert : Certificate) :
  NewPublisherAuthorityImpl (Some c) issuerDER = (c', Some pub) ->
  exists ct : CTConfig,
    CT pub = Some ct /\ c' = Some ct
    /\ Logs ct = Logs c
    /\ SubmissionRetries ct = SubmissionRetries c
    /\ ParseDuration (SubmissionBackoffString c)
       = Some (SubmissionBackoff ct)
    /\ IssuerDER ct = issuerDER
    /\ Chain (submissionOf ct cert)
       = [Base64.EncodeToString (Raw cert);
          Base64.EncodeToString issuerDER]
    /\ Base64.DecodeString (Base64.EncodeToString issuerDER)
       = (issuerDER, None).
Proof.
  unfold NewPublisherAuthorityImpl. cbn [SubmissionBackoffString].
  destruct (ParseDuration (SubmissionBackoffString c)) as [d|] eqn:Hd;
    [|discriminate].
  intros [= <- <-]. eexists. split; [reflexivity|]. cbn.
  repeat split; try assumption.
  apply Base64.DecodeString_EncodeToString.
Qed.

(** X16.  Construction from a configuration fails exactly when the backoff
    string does not parse.  The failure comes after the issuer bytes have
    been stored: the caller's configuration is left with its [IssuerDER]
    overwritten and its other fields as they were. *)
Theorem NewPublisherAuthorityImpl_fails_iff
  (c : CTConfig) (issuerDER : list byte) :
  (snd (NewPublisherAuthorityImpl (Some c) issuerDER) = None
   <-> ParseDuration (SubmissionBackoffString c) = None)
  /\ (snd (NewPublisherAuthorityImpl (Some c) issuerDER) = None ->
      fst (NewPublisherAuthorityImpl (Some c) issuerDER)
      = Some {| Logs := Logs c;
                SubmissionRetries := SubmissionRetries c;
                SubmissionBackoffString := SubmissionBackoffString c;
                SubmissionBackoff := SubmissionBackoff c;
                IssuerDER := issuerDER |}).
Proof.
  unfold NewPublisherAuthorityImpl. cbn [SubmissionBackoffString].
  destruct (ParseDuration (SubmissionBackoffString c)) as [d|]; cbn.
  - split; [split; discriminate|discriminate].
  - split; [split; reflexivity|reflexivity].
Qed.

(** X17.  A publisher built without a configuration accepts every
    certificate without contacting any log: construction succeeds whatever
    the issuer bytes, and [SubmitToCT] returns no error, leaves the world
    as it is and makes no post and no wait, even where the submission
    request could not be marshalled. *)
Theorem NewPublisherAuthorityImpl_nil_submits_nothing
  (World : Type)
  (roundTrip : World -> string -> list byte -> exchange * World)
  (marshal : ctSubmissionRequest -> option (list byte))
  (rawOf : list byte -> option rawSignedCertificateTimestamp)
  (issuerDER : list byte) (cert : Certificate) (w : World) :
  exists pub : PublisherAuthorityImpl,
    NewPublisherAuthorityImpl None issuerDER = (None, Some pub)
    /\ SubmitToCT World roundTrip marshal rawOf pub cert w
       = (Returns None, w, []).
Proof. eexists. split; reflexivity. Qed.

End Constructor.

(** A parser of durations that knows the backoff of the bench. *)
Definition benchParseDuration (s : string) : option Z :=
  if String.eqb s "10s" then Some (10 * Time.Second) else None.

(** A wire object whose signature is the two tags and nothing more. *)
Definition rawShortSignature : rawSignedCertificateTimestamp :=
  {| rawVersion := 0; rawLogID := "AQID"; rawTimestamp := 1234567890123;
     rawSignature := "BAM="; rawExtensions := EmptyString |}.


(** *** The further properties on the test data *)


Lemma SubmitToCT_waits_between_attempts_witness :
  paced (snd (SubmitToCT nat (stationary answerBDown) benchMarshal
                benchRawOf (benchPub [logA; logB; logC] 2) benchCert
                0%nat))
  = true.
Proof.
  apply (SubmitToCT_waits_between_attempts nat (stationary answerBDown)
           benchMarshal benchRawOf (benchPub [logA; logB; logC] 2)
           benchCert 0%nat).
  intros ct [= <-]. cbn. lia.
Defined.

(** Logs A and C accept, A after a 503 response. *)
Lemma SubmitToCT_success_posts_to_every_log_witness :
  In (Post (URI logA) benchData)
    (snd (SubmitToCT (list exchange) scripted benchMarshal benchRawOf
            (benchPub [logA; logC] 1) benchCert
            [Responds (respond 503) bodyGood;
             Responds (respond 200) bodyGood;
             Responds (respond 200) bodyGood]))
  /\ In (Post (URI logC) benchData)
       (snd (SubmitToCT (list exchange) scripted benchMarshal benchRawOf
               (benchPub [logA; logC] 1) benchCert
               [Responds (respond 503) bodyGood;
                Responds (respond 200) bodyGood;
                Responds (respond 200) bodyGood])).
Proof.
  pose proof (SubmitToCT_success_posts_to_every_log (list exchange) scripted
                benchMarshal benchRawOf (benchPub [logA; logC] 1)
                (benchCT [logA; logC] 1) benchCert benchData
                [Responds (respond 503) bodyGood;
                 Responds (respond 200) bodyGood;
                 Responds (respond 200) bodyGood]
                eq_refl ltac:(cbn; lia) eq_refl
                ltac:(vm_compute; reflexivity)) as H.
  split; apply H; cbn; auto.
Defined.

Lemma SubmitToCT_negative_retries_witness :
  SubmitToCT nat (stationary answerB451) benchMarshal benchRawOf
    (benchPub [logA; logB] (-1)) benchCert 0%nat
  = (Returns (Some UnableToSubmitCertificate), 0%nat, []).
Proof.
  apply (SubmitToCT_negative_retries nat (stationary answerB451)
           benchMarshal benchRawOf (benchPub [logA; logB] (-1))
           (benchCT [logA; logB] (-1)) benchCert benchData 0%nat).
  - reflexivity.
  - reflexivity.
  - cbn. lia.
  - discriminate.
Defined.

(** A garbled body, then a 503 response, then acceptance. *)
Lemma accepted_log_answered_200_witness :
  exists (w0 : list exchange) (resp : Response) (body : list byte)
         (sct' : signedCertificateTimestamp),
    scripted w0 (URI logA) benchData = (Responds resp body, [])
    /\ StatusCode resp = StatusOK
    /\ UnmarshalJSON benchRawOf zeroSCT body = (sct', None)
    /\ CheckSignature sct' = Returns None.
Proof.
  apply (accepted_log_answered_200 (list exchange) scripted benchRawOf
           (benchCT [logA] 2) benchData logA
           [Responds (respond 200) bodyBadSignature;
            Responds (respond 503) bodyGood;
            Responds (respond 200) bodyGood]
           []
           [Post (URI logA) benchData; Sleep (10 * Time.Second);
            Post (URI logA) benchData; Sleep (10 * Time.Second);
            Post (URI logA) benchData]).
  - cbn. lia.
  - vm_compute. reflexivity.
Defined.

Lemma unexpected_status_is_not_retried_witness :
  submitToLog nat (stationary answerB451) benchRawOf (benchCT [logB] 2)
    benchData logB 0%nat
  = (Returns (Some UnableToSubmitCertificate), 1%nat,
     [Post (URI logB) benchData]).
Proof.
  apply (unexpected_status_is_not_retried nat (stationary answerB451)
           benchRawOf (benchCT [logB] 2) benchData logB 0%nat 1%nat
           (respond 451) bodyGood sctGood).
  - cbn. lia.
  - reflexivity.
  - vm_compute. reflexivity.
  - vm_compute. discriminate.
  - vm_compute. discriminate.
  - vm_compute. discriminate.
Defined.

(** A 200 response whose signature is the two tags only: the truncation
    error is returned after one post, with two retries left. *)
Lemma first_200_answer_is_final_witness :
  submitToLog (list exchange) scripted (fun _ => Some rawShortSignature)
    (benchCT [logA] 2) benchData logA
    [Responds (respond 200) bodyGood; Responds (respond 200) bodyGood]
  = (Returns (option_map BadSignature (Some SignatureTruncated)),
     [Responds (respond 200) bodyGood], [Post (URI logA) benchData]).
Proof.
  apply (first_200_answer_is_final (list exchange) scripted
           (fun _ => Some rawShortSignature) (benchCT [logA] 2) benchData
           logA
           [Responds (respond 200) bodyGood; Responds (respond 200) bodyGood]
           [Responds (respond 200) bodyGood] (respond 200) bodyGood
           (withSignature sctGood [x04; x03])
           (Some SignatureTruncated)).
  - cbn. lia.
  - reflexivity.
  - vm_compute. reflexivity.
  - reflexivity.
  - reflexivity.
Defined.

(** Retry-After headers of 5, then of a word, then acceptance. *)
Lemma SubmitToCT_never_waits_as_told_witness :
  Forall (configuredOrNoPause (benchCT [logA] 2))
    (snd (SubmitToCT (list exchange) scripted benchMarshal benchRawOf
            (benchPub [logA] 2) benchCert
            [Responds (respondRetryAfter 503 "5") bodyGood;
             Responds (respondRetryAfter 408 "soon") bodyGood;
             Responds (respond 200) bodyGood])).
Proof.
  apply (SubmitToCT_never_waits_as_told (list exchange) scripted
           benchMarshal benchRawOf (benchPub [logA] 2) (benchCT [logA] 2)
           benchCert
           [Responds (respondRetryAfter 503 "5") bodyGood;
            Responds (respondRetryAfter 408 "soon") bodyGood;
            Responds (respond 200) bodyGood]).
  reflexivity.
Defined.

Lemma SubmitToCT_returns_witness :
  exists (err : option submitError) (w' : nat) (t : list event),
    SubmitToCT nat (stationary answerBDown) benchMarshal benchRawOf
      (benchPub [logA; logB; logC] 2) benchCert 0%nat
    = (Returns err, w', t).
Proof.
  apply (SubmitToCT_returns nat (stationary answerBDown) benchMarshal
           benchRawOf (benchPub [logA; logB; logC] 2) benchCert 0%nat).
  intros ct [= <-]. cbn. lia.
Defined.

Lemma SubmitToCT_posts_payload_witness :
  Forall (eventFor benchData (Logs (benchCT [logA; logB; logC] 2)))
    (snd (SubmitToCT nat (stationary answerBDown) benchMarshal benchRawOf
            (benchPub [logA; logB; logC] 2) benchCert 0%nat)).
Proof.
  apply (SubmitToCT_posts_payload nat (stationary answerBDown) benchMarshal
           benchRawOf (benchPub [logA; logB; logC] 2)
           (benchCT [logA; logB; logC] 2) benchCert benchData 0%nat);
    reflexivity.
Defined.

Lemma CheckSignature_ignores_declared_length_witness :
  CheckSignature
    (withSignature sctGood (x04 :: x03 :: xff :: xff :: Asn1.der_1_2))
  = CheckSignature sctGood.
Proof.
  apply (CheckSignature_ignores_declared_length sctGood
           (withSignature sctGood (x04 :: x03 :: xff :: xff :: Asn1.der_1_2))
           x04 x03 x00 x08 xff xff Asn1.der_1_2);
    reflexivity.
Defined.

(** [SEQUENCE { INTEGER 1, INTEGER 2, NULL }] passes the check. *)
Lemma CheckSignature_accepts_extra_in_sequence_witness :
  CheckSignature
    (withSignature sctGood
       [x04; x03; x00; x0a;
        x30; x08; x02; x01; x01; x02; x01; x02; x05; x00])
  = Returns None.
Proof.
  apply (CheckSignature_accepts_extra_in_sequence
           (withSignature sctGood
              [x04; x03; x00; x0a;
               x30; x08; x02; x01; x01; x02; x01; x02; x05; x00])
           x00 x0a [x01] [x02] [x05; x00]).
  - reflexivity.
  - reflexivity.
  - vm_compute. reflexivity.
  - reflexivity.
Defined.

Lemma UnmarshalJSON_round_trip_witness :
  UnmarshalJSON (fun _ => Some rawGood) (withSignature sctGood [xff]) bodyGood
  = ({| SCTVersion := 0; LogID := [x01; x02; x03];
        Timestamp := 1234567890123; Extensions := [];
        Signature := x04 :: x03 :: x00 :: x08 :: Asn1.der_1_2 |}, None).
Proof.
  apply (UnmarshalJSON_round_trip (fun _ => Some rawGood)
           (withSignature sctGood [xff]) bodyGood 0 1234567890123
           [x01; x02; x03] (x04 :: x03 :: x00 :: x08 :: Asn1.der_1_2) []).
  vm_compute. reflexivity.
Defined.

Lemma UnmarshalJSON_error_frame_witness :
  SCTVersion (withSignature sctGood [x04; x03; x00]) = SCTVersion sctGood
  /\ Timestamp (withSignature sctGood [x04; x03; x00]) = Timestamp sctGood
  /\ (FailedToDecodeSignature = FailedToUnmarshalReceipt ->
      withSignature sctGood [x04; x03; x00] = sctGood)
  /\ (FailedToDecodeSignature = FailedToDecodeLogID ->
      Signature (withSignature sctGood [x04; x03; x00]) = Signature sctGood
      /\ Extensions (withSignature sctGood [x04; x03; x00])
         = Extensions sctGood)
  /\ (FailedToDecodeSignature = FailedToDecodeSignature ->
      Extensions (withSignature sctGood [x04; x03; x00])
      = Extensions sctGood).
Proof.
  apply (UnmarshalJSON_error_frame benchRawOf sctGood
           (withSignature sctGood [x04; x03; x00]) bodyBadSignature
           FailedToDecodeSignature).
  vm_compute. reflexivity.
Defined.

Lemma NewPublisherAuthorityImpl_submits_given_issuer_witness :
  exists ct : CTConfig,
    CT (benchPub [logA] 1) = Some ct
    /\ Some (benchCT [logA] 1) = Some ct
    /\ Logs ct = [logA]
    /\ SubmissionRetries ct = 1
    /\ benchParseDuration "10s" = Some (SubmissionBackoff ct)
    /\ IssuerDER ct = [x30; x03; x02; x01; x07]
    /\ Chain (submissionOf ct benchCert)
       = [Base64.EncodeToString (Raw benchCert);
          Base64.EncodeToString [x30; x03; x02; x01; x07]]
    /\ Base64.DecodeString (Base64.EncodeToString [x30; x03; x02; x01; x07])
       = ([x30; x03; x02; x01; x07], None).
Proof.
  apply (NewPublisherAuthorityImpl_submits_given_issuer benchParseDuration
           {| Logs := [logA]; SubmissionRetries := 1;
              SubmissionBackoffString := "10s"; SubmissionBackoff := 0;
              IssuerDER := [] |}
           [x30; x03; x02; x01; x07] (Some (benchCT [logA] 1))
           (benchPub [logA] 1) benchCert).
  reflexivity.
Defined.

End Publisher.
